(** * askaiquestions-2api: the gateway of [src/index.ts], embedded in Rocq

    The development follows the source file top to bottom:
    - [JS]: the fragment of the JavaScript runtime the gateway relies on
      (strings as UTF-16 code units, numbers that are integers or NaN,
      [substring], [startsWith], [parseInt], truthiness, parsed JSON values);
    - [Gateway]: [CONFIG], [errorResponse], [createPseudoStream] and its
      [start] callback, [handleModels], [handleChatCompletions],
      [handleApiProxy] and the [fetch] handler of [Bun.serve];
    - the theorems about the emitter and the dispatcher. *)

From Stdlib Require Import String Ascii DecimalString QArith ZArith Bool Lia List.
From Stdlib Require DecimalN.
Import ListNotations.
Local Open Scope Z_scope.

(* ================================================================== *)
(** ** The JavaScript runtime fragment *)
(* ================================================================== *)

Module JS.

(** A JavaScript string is a sequence of UTF-16 code units. *)
Definition jsstring := list N.

(** An ASCII literal of the source, as code units. *)
Definition lit (s : string) : jsstring :=
  map N_of_ascii (list_ascii_of_string s).

Fixpoint str_eqb (a b : jsstring) : bool :=
  match a, b with
  | [], [] => true
  | x :: a', y :: b' => N.eqb x y && str_eqb a' b'
  | _, _ => false
  end.

(** [s.startsWith(p)] *)
Fixpoint startsWith (s p : jsstring) {struct p} : bool :=
  match p, s with
  | [], _ => true
  | y :: p', x :: s' => N.eqb x y && startsWith s' p'
  | _ :: _, [] => false
  end.

(** Numbers.  Every number the gateway computes with is an integer or NaN:
    [parseInt] returns nothing else and the loop counter of the emitter only
    adds such values.  The rounding of doubles beyond 2^53 and the sign of
    zero are not represented. *)
Inductive jsnum := NaN | Num (z : Z).

Definition jsadd (a b : jsnum) : jsnum :=
  match a, b with
  | Num x, Num y => Num (x + y)
  | _, _ => NaN
  end.

(** [a < b]: false as soon as one side is NaN. *)
Definition jslt (a b : jsnum) : bool :=
  match a, b with
  | Num x, Num y => x <? y
  | _, _ => false
  end.

Definition jsgt (a b : jsnum) : bool := jslt b a.

(** ToIntegerOrInfinity *)
Definition toInteger (n : jsnum) : Z :=
  match n with NaN => 0 | Num z => z end.

Definition clamp (len : Z) (n : jsnum) : Z :=
  Z.min (Z.max (toInteger n) 0) len.

(** [s.substring(start, end)]: both bounds are clamped to [0, length] and
    swapped when out of order. *)
Definition substring (s : jsstring) (start end_ : jsnum) : jsstring :=
  let len := Z.of_nat (length s) in
  let finalStart := clamp len start in
  let finalEnd := clamp len end_ in
  let from := Z.min finalStart finalEnd in
  let to := Z.max finalStart finalEnd in
  firstn (Z.to_nat (to - from)) (skipn (Z.to_nat from) s).

(** [s.substring(start)]: the end defaults to the length. *)
Definition substring_from (s : jsstring) (start : jsnum) : jsstring :=
  substring s start (Num (Z.of_nat (length s))).

(** *** parseInt with no radix argument *)

Definition between (lo hi c : N) : bool := (N.leb lo c && N.leb c hi)%bool.

(** WhiteSpace and LineTerminator code units. *)
Definition isWhiteSpace (c : N) : bool :=
  (between 9 13 c || N.eqb c 32 || N.eqb c 160 || N.eqb c 5760
   || between 8192 8202 c || N.eqb c 8232 || N.eqb c 8233
   || N.eqb c 8239 || N.eqb c 8287 || N.eqb c 12288 || N.eqb c 65279)%bool.

Fixpoint trimStart (s : jsstring) : jsstring :=
  match s with
  | c :: s' => if isWhiteSpace c then trimStart s' else s
  | [] => []
  end.

Definition digitValue (c : N) : option Z :=
  if between 48 57 c then Some (Z.of_N c - 48)
  else if between 97 122 c then Some (Z.of_N c - 97 + 10)
  else if between 65 90 c then Some (Z.of_N c - 65 + 10)
  else None.

(** The longest prefix of digits of the radix, as a number; [None] when the
    prefix is empty. *)
Fixpoint digits (radix : Z) (s : jsstring) (acc : option Z) : option Z :=
  match s with
  | c :: s' =>
      match digitValue c with
      | Some d =>
          if d <? radix
          then digits radix s'
                 (Some (match acc with Some a => a * radix + d | None => d end))
          else acc
      | None => acc
      end
  | [] => acc
  end.

Definition stripSign (s : jsstring) : Z * jsstring :=
  match s with
  | c :: r => if N.eqb c 45 then (-1, r) else if N.eqb c 43 then (1, r) else (1, s)
  | [] => (1, s)
  end.

Definition stripPrefix (s : jsstring) : Z * jsstring :=
  match s with
  | c :: x :: r =>
      if (N.eqb c 48 && (N.eqb x 120 || N.eqb x 88))%bool then (16, r) else (10, s)
  | _ => (10, s)
  end.

Definition parseInt (input : jsstring) : jsnum :=
  let (sign, s1) := stripSign (trimStart input) in
  let (radix, s2) := stripPrefix s1 in
  match digits radix s2 None with
  | None => NaN
  | Some v => Num (sign * v)
  end.

(** Decimal rendering of a non-negative integer, as in a template literal. *)
Definition decimal (z : Z) : jsstring :=
  lit (NilZero.string_of_uint (N.to_uint (Z.to_N z))).

(** *** Values produced by [JSON.parse] *)

Unset Elimination Schemes.
Inductive JSON :=
| JNull
| JBool (b : bool)
| JNum (q : Q)
| JStr (s : jsstring)
| JArr (items : list JSON)
| JObj (fields : list (jsstring * JSON)).
Set Elimination Schemes.

(** A JavaScript value read out of parsed JSON: [None] is [undefined]. *)
Definition value := option JSON.

Fixpoint lookup (key : jsstring) (fields : list (jsstring * JSON)) : value :=
  match fields with
  | [] => None
  | (k, v) :: rest => if str_eqb k key then Some v else lookup key rest
  end.

(** Exceptions carry their [message]. *)
Record Exn := Error { message : jsstring }.

Inductive Completion (A : Type) :=
| Normal (a : A)
| Throw (e : Exn).
Arguments Normal {A} a.
Arguments Throw {A} e.

(** [v.key] for one of the keys the gateway reads ([stream], [model],
    [messages], [summary]); none of them is a property of arrays, strings,
    numbers or booleans.  Reading a property of [null] throws a TypeError,
    whose text the engine chooses. *)
Definition getProp (nullError : Exn) (v : JSON) (key : jsstring)
  : Completion value :=
  match v with
  | JNull => Throw nullError
  | JObj fields => Normal (lookup key fields)
  | _ => Normal None
  end.

(** ToBoolean *)
Definition truthy (v : value) : bool :=
  match v with
  | None => false
  | Some JNull => false
  | Some (JBool b) => b
  | Some (JNum q) => negb (Z.eqb (Qnum q) 0)
  | Some (JStr s) => match s with [] => false | _ => true end
  | Some (JArr _) => true
  | Some (JObj _) => true
  end.

(** [v || d] *)
Definition or_else (v : value) (d : JSON) : JSON :=
  match v with
  | Some x => if truthy v then x else d
  | None => d
  end.

(** [v.length] of a value that is not null or undefined: arrays and strings
    have it, an object has it when one of its fields is called so, the other
    values give [undefined]. *)
Definition length_of (v : JSON) : value :=
  match v with
  | JArr items => Some (JNum (inject_Z (Z.of_nat (length items))))
  | JStr s => Some (JNum (inject_Z (Z.of_nat (length s))))
  | JObj fields => lookup (lit "length") fields
  | _ => None
  end.

(** [v === 0] *)
Definition is_zero (v : value) : bool :=
  match v with
  | Some (JNum q) => Z.eqb (Qnum q) 0
  | _ => false
  end.

(** [typeof v === 'string'] *)
Definition is_string (v : value) : option jsstring :=
  match v with
  | Some (JStr s) => Some s
  | _ => None
  end.

End JS.

(* ================================================================== *)
(** ** The gateway *)
(* ================================================================== *)

Module Gateway.
Import JS.

(** *** Process configuration (lines 7-19) *)

(** [process.env]: a variable is unset ([None]) or holds a string. *)
Record ProcessEnv := {
  env_API_MASTER_KEY : option jsstring;
  env_UPSTREAM_URL : option jsstring;
  env_PSEUDO_STREAM_CHUNK_SIZE : option jsstring;
  env_PSEUDO_STREAM_DELAY_MS : option jsstring
}.

(** [process.env.X || d]: unset and empty both fall back to [d]. *)
Definition env_or (v : option jsstring) (d : jsstring) : jsstring :=
  match v with
  | Some (c :: s) => c :: s
  | _ => d
  end.

Record Config := {
  PROJECT_NAME : jsstring;
  PROJECT_VERSION : jsstring;
  API_MASTER_KEY : jsstring;
  UPSTREAM_URL : jsstring;
  DEFAULT_MODEL : jsstring;
  KNOWN_MODELS : list jsstring;
  PSEUDO_STREAM_CHUNK_SIZE : jsnum;
  PSEUDO_STREAM_DELAY_MS : jsnum
}.

(** The module-level [CONFIG] object.  The script goes from here straight
    to [Bun.serve]: nothing inspects the values it has just read. *)
Definition CONFIG (env : ProcessEnv) : Config := {|
  PROJECT_NAME := lit "askaiquestions-2api-bun";
  PROJECT_VERSION := lit "2.0.0";
  API_MASTER_KEY := env_or (env_API_MASTER_KEY env) (lit "default-unsafe-key");
  UPSTREAM_URL :=
    env_or (env_UPSTREAM_URL env)
      (lit "https://pjfuothbq9.execute-api.us-east-1.amazonaws.com/get-summary");
  DEFAULT_MODEL := lit "askai-default-model";
  KNOWN_MODELS := [lit "askai-default-model"];
  PSEUDO_STREAM_CHUNK_SIZE :=
    parseInt (env_or (env_PSEUDO_STREAM_CHUNK_SIZE env) (lit "2"));
  PSEUDO_STREAM_DELAY_MS :=
    parseInt (env_or (env_PSEUDO_STREAM_DELAY_MS env) (lit "2"))
|}.

(** *** Streamed events *)

(** One [chat.completion.chunk] object.  [chunk_created] is absent from the
    error chunk; [delta_content = None] is the empty delta [{}];
    [finish_reason = None] is [null]. *)
Record StreamChunk := {
  chunk_id : jsstring;
  chunk_object : jsstring;
  chunk_created : option Z;
  chunk_model : JSON;
  choice_index : Z;
  delta_content : option jsstring;
  finish_reason : option jsstring
}.

(** What [controller.enqueue] is given: [SseData c] stands for the bytes of
    [data: <JSON.stringify(c)>] followed by a blank line, [SseDone] for the
    literal [data: [DONE]] event. *)
Inductive SseEvent :=
| SseData (c : StreamChunk)
| SseDone.

(** The stream controller together with what the callback observes of the
    world: the queue handed to the client, whether the stream is closed, how
    many times [enqueue] has been called, how many times the clock has been
    read and the timers that were awaited. *)
Record Wire := {
  queue : list SseEvent;
  closed : bool;
  attempts : nat;
  ticks : nat;
  timers : list jsnum
}.

Definition newWire : Wire :=
  {| queue := []; closed := false; attempts := 0; ticks := 0; timers := [] |}.

(** The argument of [new ReadableStream]: the callback [start] closed over
    the three parameters of [createPseudoStream]. *)
Record PseudoStream := {
  ps_fullText : jsstring;
  ps_requestId : jsstring;
  ps_model : JSON
}.

Definition createPseudoStream (fullText requestId : jsstring) (model : JSON)
  : PseudoStream :=
  {| ps_fullText := fullText; ps_requestId := requestId; ps_model := model |}.

Section Emitter.

(** [Date.now()] at its n-th reading, in milliseconds. *)
Variable clock : nat -> Z.
(** Whether the n-th [controller.enqueue(encoder.encode(...))] statement
    (counted from 0) throws, and the exception it then throws. *)
Variable faults : nat -> bool.
Variable enqueueError : Exn.

Variable cfg : Config.

(** [Math.floor(Date.now() / 1000)] *)
Definition now_seconds (w : Wire) : Z * Wire :=
  (clock (ticks w) / 1000,
   {| queue := queue w; closed := closed w; attempts := attempts w;
      ticks := S (ticks w); timers := timers w |}).

(** [controller.enqueue(encoder.encode(...))]: throws on a closed stream and
    where the fault schedule says so. *)
Definition enqueue (ev : SseEvent) (w : Wire) : Completion unit * Wire :=
  if (closed w || faults (attempts w))%bool
  then (Throw enqueueError,
        {| queue := queue w; closed := closed w; attempts := S (attempts w);
           ticks := ticks w; timers := timers w |})
  else (Normal tt,
        {| queue := queue w ++ [ev]; closed := closed w;
           attempts := S (attempts w); ticks := ticks w; timers := timers w |}).

(** [await new Promise(resolve => setTimeout(resolve, delay))] *)
Definition sleep (delay : jsnum) (w : Wire) : Wire :=
  {| queue := queue w; closed := closed w; attempts := attempts w;
     ticks := ticks w; timers := timers w ++ [delay] |}.

(** [controller.close()], the only place where the stream gets closed. *)
Definition close (w : Wire) : Wire :=
  {| queue := queue w; closed := true; attempts := attempts w;
     ticks := ticks w; timers := timers w |}.

Definition contentChunk (ps : PseudoStream) (created : Z) (content : jsstring)
  : StreamChunk :=
  {| chunk_id := ps_requestId ps;
     chunk_object := lit "chat.completion.chunk";
     chunk_created := Some created;
     chunk_model := ps_model ps;
     choice_index := 0;
     delta_content := Some content;
     finish_reason := None |}.

Definition finalChunk (ps : PseudoStream) (created : Z) : StreamChunk :=
  {| chunk_id := ps_requestId ps;
     chunk_object := lit "chat.completion.chunk";
     chunk_created := Some created;
     chunk_model := ps_model ps;
     choice_index := 0;
     delta_content := None;
     finish_reason := Some (lit "stop") |}.

Definition errorChunk (ps : PseudoStream) : StreamChunk :=
  {| chunk_id := ps_requestId ps;
     chunk_object := lit "chat.completion.chunk";
     chunk_created := None;
     chunk_model := ps_model ps;
     choice_index := 0;
     delta_content := Some (10%N :: lit "[Stream Error]");
     finish_reason := Some (lit "stop") |}.

(** The [for] loop of lines 206-219, entered with counter [i].  One unit of
    fuel pays for one evaluation of the loop condition; [None] means the
    fuel ran out with the loop still running. *)
Fixpoint sliceLoop (fuel : nat) (ps : PseudoStream) (i : jsnum) (w : Wire)
  : option (Completion unit * Wire) :=
  match fuel with
  | O => None
  | S fuel' =>
      let chunkSize := PSEUDO_STREAM_CHUNK_SIZE cfg in
      let delay := PSEUDO_STREAM_DELAY_MS cfg in
      if jslt i (Num (Z.of_nat (length (ps_fullText ps)))) then
        let content := substring (ps_fullText ps) i (jsadd i chunkSize) in
        let (created, w1) := now_seconds w in
        match enqueue (SseData (contentChunk ps created content)) w1 with
        | (Throw e, w2) => Some (Throw e, w2)
        | (Normal _, w2) =>
            let w3 := if jsgt delay (Num 0) then sleep delay w2 else w2 in
            sliceLoop fuel' ps (jsadd i chunkSize) w3
        end
      else Some (Normal tt, w)
  end.

(** The [try] block: the loop, then the final chunk and the marker. *)
Definition tryBlock (fuel : nat) (ps : PseudoStream) (w : Wire)
  : option (Completion unit * Wire) :=
  match sliceLoop fuel ps (Num 0) w with
  | None => None
  | Some (Throw e, w1) => Some (Throw e, w1)
  | Some (Normal _, w1) =>
      let (created, w2) := now_seconds w1 in
      match enqueue (SseData (finalChunk ps created)) w2 with
      | (Throw e, w3) => (Some (Throw e, w3))
      | (Normal _, w3) => Some (enqueue SseDone w3)
      end
  end.

(** The [start] callback: [try], [catch] (one error chunk) and [finally]
    ([close]).  An exception of the [catch] block itself leaves [start]
    after the [finally] block. *)
Definition start (fuel : nat) (ps : PseudoStream) (w : Wire)
  : option (Completion unit * Wire) :=
  match tryBlock fuel ps w with
  | None => None
  | Some (Normal _, w1) => Some (Normal tt, close w1)
  | Some (Throw _, w1) =>
      let (r, w2) := enqueue (SseData (errorChunk ps)) w1 in
      Some (r, close w2)
  end.

End Emitter.

(** *** HTTP messages *)

(** A [Headers] object, in insertion order. *)
Definition Headers := list (jsstring * jsstring).

(** [headers.set(name, value)] *)
Fixpoint headers_set (name value : jsstring) (h : Headers) : Headers :=
  match h with
  | [] => [(name, value)]
  | (k, v) :: rest =>
      if str_eqb k name then (k, value) :: rest
      else (k, v) :: headers_set name value rest
  end.

Record ModelEntry := {
  model_id : jsstring;
  model_object : jsstring;
  model_created : Z;
  model_owned_by : jsstring
}.

Record CompletionObject := {
  completion_id : jsstring;
  completion_object : jsstring;
  completion_created : Z;
  completion_model : JSON;
  message_role : jsstring;
  message_content : jsstring;
  completion_finish_reason : jsstring;
  usage_prompt_tokens : Z;
  usage_completion_tokens : Z;
  usage_total_tokens : Z
}.

(** The body a [Response] is built from, before [JSON.stringify]. *)
Inductive Body :=
| BodyNull
| BodyError (msg type code : jsstring)
| BodyHealth (status service version : jsstring)
| BodyModels (object : jsstring) (data : list ModelEntry)
| BodyCompletion (c : CompletionObject)
| BodyStream (s : PseudoStream).

Record Response := {
  status : Z;
  headers : Headers;
  body : Body
}.

(** The code of an error envelope, when the body is one. *)
Definition error_code (r : Response) : option jsstring :=
  match body r with
  | BodyError _ _ code => Some code
  | _ => None
  end.

Definition error_message (r : Response) : option jsstring :=
  match body r with
  | BodyError msg _ _ => Some msg
  | _ => None
  end.

(** What the handlers read of the inbound request: [request.method], the
    [pathname] of its URL, [headers.get('Authorization')] ([None] is
    [null]) and the outcome of [request.json()] ([None]: it rejects). *)
Record Request := {
  method : jsstring;
  pathname : jsstring;
  authorization : option jsstring;
  json : option JSON
}.

(** The outbound call: the arguments of the upstream [fetch]. *)
Record UpstreamRequest := {
  up_url : jsstring;
  up_method : jsstring;
  up_headers : Headers;
  up_website : jsstring;
  up_messages : JSON
}.

(** The upstream's answer: its status and what [text()] and [json()] give. *)
Record UpstreamResponse := {
  up_status : Z;
  up_text : Completion jsstring;
  up_json : Completion JSON
}.

(** [response.ok] *)
Definition ok (r : UpstreamResponse) : bool :=
  ((200 <=? up_status r) && (up_status r <=? 299))%bool.

(** *** Handlers as computations

    A handler runs in a session that logs every outbound call and counts
    the readings of the clock; it ends normally or by an exception. *)

Record Session := {
  calls : list UpstreamRequest;
  reads : nat
}.

Definition newSession : Session := {| calls := []; reads := 0 |}.

Definition M (A : Type) : Type := Session -> Completion A * Session.

Definition ret {A} (a : A) : M A := fun s => (Normal a, s).

Definition throw {A} (e : Exn) : M A := fun s => (Throw e, s).

Definition bind {A B} (c : M A) (k : A -> M B) : M B :=
  fun s =>
    match c s with
    | (Normal a, s') => k a s'
    | (Throw e, s') => (Throw e, s')
    end.

(** [try { c } catch (error) { handler }] *)
Definition try_catch {A} (c : M A) (handler : Exn -> M A) : M A :=
  fun s =>
    match c s with
    | (Normal a, s') => (Normal a, s')
    | (Throw e, s') => handler e s'
    end.

(** A completed runtime operation, awaited. *)
Definition await {A} (c : Completion A) : M A := fun s => (c, s).

Notation "x <- c ;; k" := (bind c (fun x => k))
  (at level 61, c at next level, right associativity).

Fixpoint mapM {A B} (f : A -> M B) (l : list A) : M (list B) :=
  match l with
  | [] => ret []
  | a :: l' => b <- f a ;; bs <- mapM f l' ;; ret (b :: bs)
  end.

(** [errorResponse(message, status, code, headers)] (lines 251-263) *)
Definition errorResponse (msg : jsstring) (status : Z) (code : jsstring)
    (headers : Headers) : Response :=
  {| status := status;
     headers := headers_set (lit "Content-Type") (lit "application/json") headers;
     body := BodyError msg (lit "api_error") code |}.

Section Dispatcher.

Variable cfg : Config.
(** [crypto.randomUUID()] for this request. *)
Variable randomUUID : jsstring.
(** [Date.now()] at its n-th reading. *)
Variable clock : nat -> Z.
(** The backend: what the outbound [fetch] resolves to, or its rejection. *)
Variable backend : UpstreamRequest -> Completion UpstreamResponse.
(** The TypeError of a property read on [null]. *)
Variable nullError : Exn.

(** [Math.floor(Date.now() / 1000)] *)
Definition seconds : M Z :=
  fun s => (Normal (clock (reads s) / 1000),
            {| calls := calls s; reads := S (reads s) |}).

(** [await fetch(CONFIG.UPSTREAM_URL, ...)]: logged, then answered. *)
Definition fetch_upstream (r : UpstreamRequest) : M UpstreamResponse :=
  fun s => (backend r, {| calls := calls s ++ [r]; reads := reads s |}).

(** [handleModels] (lines 96-108) *)
Definition handleModels (baseHeaders : Headers) : M Response :=
  data <- mapM (fun name =>
                  created <- seconds ;;
                  ret {| model_id := name;
                         model_object := lit "model";
                         model_created := created;
                         model_owned_by := lit "askai-project" |})
               (KNOWN_MODELS cfg) ;;
  ret {| status := 200; headers := baseHeaders;
         body := BodyModels (lit "list") data |}.

(** [handleChatCompletions] (lines 113-191) *)
Definition handleChatCompletions (request : Request) (requestId : jsstring)
    (baseHeaders : Headers) : M Response :=
  match json request with
  | None =>
      ret (errorResponse (lit "Invalid JSON body") 400
             (lit "invalid_request_error") baseHeaders)
  | Some requestData =>
      stream <- await (getProp nullError requestData (lit "stream")) ;;
      let isStream := or_else stream (JBool false) in
      requested <- await (getProp nullError requestData (lit "model")) ;;
      let model := or_else requested (JStr (DEFAULT_MODEL cfg)) in
      try_catch
        (given <- await (getProp nullError requestData (lit "messages")) ;;
         let messages := or_else given (JArr []) in
         if is_zero (length_of messages) then
           ret (errorResponse (lit "Missing 'messages' field") 400
                  (lit "invalid_request_error") baseHeaders)
         else
             let upstreamHeaders :=
               [(lit "accept", lit "*/*");
                (lit "content-type", lit "application/json");
                (lit "origin", lit "https://askaiquestions.net");
                (lit "referer", lit "https://askaiquestions.net/");
                (lit "user-agent",
                 lit "Mozilla/5.0 (compatible; Bun/1.0; +https://bun.sh)");
                (lit "X-Request-ID", requestId)] in
             upstreamResponse <-
               fetch_upstream {| up_url := UPSTREAM_URL cfg;
                                 up_method := lit "POST";
                                 up_headers := upstreamHeaders;
                                 up_website := lit "ask-ai-questions";
                                 up_messages := messages |} ;;
             if negb (ok upstreamResponse) then
               errorText <- await (up_text upstreamResponse) ;;
               ret (errorResponse (lit "Upstream error: " ++ errorText) 502
                      (lit "upstream_" ++ decimal (up_status upstreamResponse))
                      baseHeaders)
             else
               upstreamData <- await (up_json upstreamResponse) ;;
               summary <- await (getProp nullError upstreamData (lit "summary")) ;;
               match is_string summary with
               | None =>
                   throw (Error (lit "Upstream response missing 'summary' field."))
               | Some summary =>
                   if truthy (Some isStream) then
                     let stream := createPseudoStream summary requestId model in
                     let h1 := headers_set (lit "Content-Type")
                                 (lit "text/event-stream") baseHeaders in
                     let h2 := headers_set (lit "Cache-Control") (lit "no-cache") h1 in
                     let h3 := headers_set (lit "Connection") (lit "keep-alive") h2 in
                     ret {| status := 200; headers := h3; body := BodyStream stream |}
                   else
                     created <- seconds ;;
                     ret {| status := 200; headers := baseHeaders;
                            body := BodyCompletion
                              {| completion_id := requestId;
                                 completion_object := lit "chat.completion";
                                 completion_created := created;
                                 completion_model := model;
                                 message_role := lit "assistant";
                                 message_content := summary;
                                 completion_finish_reason := lit "stop";
                                 usage_prompt_tokens := 0;
                                 usage_completion_tokens := 0;
                                 usage_total_tokens := 0 |} |}
               end)
        (fun error =>
           ret (errorResponse (lit "Processing failed: " ++ message error) 502
                  (lit "api_error") baseHeaders))
  end.

(** The authentication test of line 75, [true] when the request is refused. *)
Definition unauthorized (authHeader : option jsstring) : bool :=
  match authHeader with
  | None => true
  | Some [] => true
  | Some h =>
      (negb (startsWith h (lit "Bearer "))
       || negb (str_eqb (substring_from h (Num 7)) (API_MASTER_KEY cfg)))%bool
  end.

(** [handleApiProxy] (lines 58-91) *)
Definition handleApiProxy (request : Request) : M Response :=
  let requestId := randomUUID in
  let responseHeaders :=
    [(lit "Content-Type", lit "application/json");
     (lit "X-Request-ID", requestId);
     (lit "Access-Control-Allow-Origin", lit "*");
     (lit "Access-Control-Allow-Headers", lit "Content-Type, Authorization")] in
  if str_eqb (method request) (lit "OPTIONS") then
    ret {| status := 204; headers := responseHeaders; body := BodyNull |}
  else if unauthorized (authorization request) then
    ret (errorResponse (lit "Unauthorized") 401 (lit "invalid_api_key")
           responseHeaders)
  else if (str_eqb (pathname request) (lit "/v1/models")
           && str_eqb (method request) (lit "GET"))%bool then
    handleModels responseHeaders
  else if (str_eqb (pathname request) (lit "/v1/chat/completions")
           && str_eqb (method request) (lit "POST"))%bool then
    handleChatCompletions request requestId responseHeaders
  else
    ret (errorResponse
           (lit "Method " ++ method request ++ lit " not allowed for "
              ++ pathname request)
           405 (lit "method_not_allowed") responseHeaders).

(** The [fetch] handler given to [Bun.serve] (lines 25-52): the response
    sent to the client and the session it leaves behind. *)
Definition fetch (req : Request) (s : Session) : Response * Session :=
  let attempt :=
    if startsWith (pathname req) (lit "/v1/") then handleApiProxy req
    else if str_eqb (pathname req) (lit "/") then
      ret {| status := 200;
             headers := [(lit "Content-Type", lit "application/json")];
             body := BodyHealth (lit "ok") (PROJECT_NAME cfg)
                       (PROJECT_VERSION cfg) |}
    else
      ret (errorResponse (lit "Path not found: " ++ pathname req) 404
             (lit "not_found") []) in
  match attempt s with
  | (Normal response, s') => (response, s')
  | (Throw error, s') =>
      (errorResponse (lit "Internal Server Error: " ++ message error) 500
         (lit "internal_server_error") [], s')
  end.

End Dispatcher.

(** The [delta.content] fields of the queued chunks, in order. *)
Definition contents (q : list SseEvent) : list jsstring :=
  flat_map (fun ev =>
              match ev with
              | SseData c => match delta_content c with
                             | Some s => [s]
                             | None => []
                             end
              | SseDone => []
              end) q.

End Gateway.

(* ================================================================== *)
(** ** Facts about the runtime fragment *)
(* ================================================================== *)

Module JSFacts.
Import JS.

Lemma str_eqb_refl (a : jsstring) : str_eqb a a = true.
Proof.
  induction a as [|x a IH]; simpl; [reflexivity|].
  now rewrite N.eqb_refl, IH.
Qed.

Lemma str_eqb_eq (a b : jsstring) : str_eqb a b = true <-> a = b.
Proof.
  split; [|intros ->; apply str_eqb_refl].
  revert b; induction a as [|x a IH]; intros [|y b]; simpl; try easy.
  rewrite andb_true_iff, N.eqb_eq. intros [-> H]. f_equal. now apply IH.
Qed.

Lemma str_eqb_neq (a b : jsstring) : str_eqb a b = false <-> a <> b.
Proof.
  rewrite <- str_eqb_eq. destruct (str_eqb a b); split; congruence.
Qed.

Lemma startsWith_app (p r : jsstring) : startsWith (p ++ r) p = true.
Proof.
  induction p as [|y p IH]; simpl; [reflexivity|].
  now rewrite N.eqb_refl, IH.
Qed.

Lemma startsWith_split (s p : jsstring) :
  startsWith s p = true -> s = p ++ skipn (length p) s.
Proof.
  revert s; induction p as [|y p IH]; intros s; simpl; [reflexivity|].
  destruct s as [|x s]; [discriminate|].
  rewrite andb_true_iff, N.eqb_eq. intros [-> H]. f_equal. now apply IH.
Qed.

(** [s.substring(n)] drops the first [n] code units. *)
Lemma substring_from_skipn (s : jsstring) (n : Z) :
  0 <= n -> substring_from s (Num n) = skipn (Z.to_nat n) s.
Proof.
  intros Hn. unfold substring_from, substring, clamp; simpl.
  set (len := Z.of_nat (length s)).
  assert (Hlen : 0 <= len) by (unfold len; lia).
  destruct (Z_le_gt_dec n len) as [Hle|Hgt].
  - replace (Z.min (Z.min (Z.max n 0) len) (Z.min (Z.max len 0) len)) with n by lia.
    replace (Z.max (Z.min (Z.max n 0) len) (Z.min (Z.max len 0) len)) with len by lia.
    apply firstn_all2. rewrite length_skipn. unfold len. lia.
  - replace (Z.min (Z.min (Z.max n 0) len) (Z.min (Z.max len 0) len)) with len by lia.
    replace (Z.max (Z.min (Z.max n 0) len) (Z.min (Z.max len 0) len)) with len by lia.
    rewrite Z.sub_diag. simpl.
    symmetry. apply skipn_all2. unfold len in Hgt. lia.
Qed.

(** A slice of [c >= 1] code units taken inside the string. *)
Lemma substring_slice (s : jsstring) (i c : Z) :
  0 <= i -> 1 <= c ->
  substring s (Num i) (Num (i + c))
  = firstn (Z.to_nat c) (skipn (Z.to_nat i) s).
Proof.
  intros Hi Hc. unfold substring, clamp; simpl.
  set (len := Z.of_nat (length s)).
  assert (Hlen : 0 <= len) by (unfold len; lia).
  destruct (Z_le_gt_dec i len) as [Hle|Hgt].
  - replace (Z.min (Z.min (Z.max i 0) len) (Z.min (Z.max (i + c) 0) len))
      with i by lia.
    destruct (Z_le_gt_dec (i + c) len) as [Hin|Hout].
    + replace (Z.max (Z.min (Z.max i 0) len) (Z.min (Z.max (i + c) 0) len))
        with (i + c) by lia.
      f_equal. lia.
    + replace (Z.max (Z.min (Z.max i 0) len) (Z.min (Z.max (i + c) 0) len))
        with len by lia.
      rewrite !firstn_all2; try reflexivity;
        rewrite length_skipn; unfold len in *; lia.
  - replace (Z.min (Z.min (Z.max i 0) len) (Z.min (Z.max (i + c) 0) len))
      with len by lia.
    replace (Z.max (Z.min (Z.max i 0) len) (Z.min (Z.max (i + c) 0) len))
      with len by lia.
    rewrite Z.sub_diag. simpl.
    rewrite (skipn_all2 s) by (unfold len in Hgt; lia).
    now rewrite firstn_nil.
Qed.

End JSFacts.

(* ================================================================== *)
(** ** The pseudo-stream emitter *)
(* ================================================================== *)

Module EmitterFacts.
Import JS Gateway JSFacts.

Section SlicingLoop.

Variable clock : nat -> Z.
Variable faults : nat -> bool.
Variable enqueueError : Exn.
Variable cfg : Config.
Variable ps : PseudoStream.

(** The configured chunk size is an integer. *)
Variable c : Z.
Hypothesis chunk_size : PSEUDO_STREAM_CHUNK_SIZE cfg = Num c.

Let T := ps_fullText ps.
Let len := Z.of_nat (length T).
Let loop := sliceLoop clock faults enqueueError cfg.

(** The slice taken at offset [i]. *)
Definition slice (i : Z) : jsstring := substring T (Num i) (Num (i + c)).

(** The wire after one successful iteration entered at offset [i]. *)
Definition afterSlice (i : Z) (w : Wire) : Wire :=
  let w2 :=
    {| queue := queue w
                  ++ [SseData (contentChunk ps (clock (ticks w) / 1000) (slice i))];
       closed := closed w;
       attempts := S (attempts w);
       ticks := S (ticks w);
       timers := timers w |} in
  if jsgt (PSEUDO_STREAM_DELAY_MS cfg) (Num 0)
  then sleep (PSEUDO_STREAM_DELAY_MS cfg) w2 else w2.

(** The wire after [n] successful iterations. *)
Fixpoint afterSlices (n : nat) (i : Z) (w : Wire) : Wire :=
  match n with
  | O => w
  | S n' => afterSlices n' (i + c) (afterSlice i w)
  end.

(** The wire after an iteration whose [enqueue] throws. *)
Definition afterThrow (w : Wire) : Wire :=
  {| queue := queue w; closed := closed w; attempts := S (attempts w);
     ticks := S (ticks w); timers := timers w |}.

(** The chunks of [n] iterations from offset [i], the clock read [t] times
    before. *)
Fixpoint sliced (n : nat) (i : Z) (t : nat) : list StreamChunk :=
  match n with
  | O => []
  | S n' => contentChunk ps (clock t / 1000) (slice i) :: sliced n' (i + c) (S t)
  end.

Lemma afterSlice_queue i w :
  queue (afterSlice i w)
  = queue w ++ [SseData (contentChunk ps (clock (ticks w) / 1000) (slice i))].
Proof. unfold afterSlice. now destruct (jsgt _ _). Qed.

Lemma afterSlice_closed i w : closed (afterSlice i w) = closed w.
Proof. unfold afterSlice. now destruct (jsgt _ _). Qed.

Lemma afterSlice_attempts i w : attempts (afterSlice i w) = S (attempts w).
Proof. unfold afterSlice. now destruct (jsgt _ _). Qed.

Lemma afterSlice_ticks i w : ticks (afterSlice i w) = S (ticks w).
Proof. unfold afterSlice. now destruct (jsgt _ _). Qed.

Lemma afterSlices_queue n : forall i w,
  queue (afterSlices n i w) = queue w ++ map SseData (sliced n i (ticks w)).
Proof.
  induction n as [|n IH]; intros i w; simpl.
  - now rewrite app_nil_r.
  - rewrite IH, afterSlice_queue, afterSlice_ticks, <- app_assoc. reflexivity.
Qed.

Lemma afterSlices_closed n : forall i w,
  closed (afterSlices n i w) = closed w.
Proof.
  induction n as [|n IH]; intros i w; simpl; [reflexivity|].
  now rewrite IH, afterSlice_closed.
Qed.

Lemma afterSlices_attempts n : forall i w,
  attempts (afterSlices n i w) = (attempts w + n)%nat.
Proof.
  induction n as [|n IH]; intros i w; simpl; [lia|].
  rewrite IH, afterSlice_attempts. lia.
Qed.

Lemma afterSlices_ticks n : forall i w,
  ticks (afterSlices n i w) = (ticks w + n)%nat.
Proof.
  induction n as [|n IH]; intros i w; simpl; [lia|].
  rewrite IH, afterSlice_ticks. lia.
Qed.

(** One turn of the loop whose [enqueue] succeeds. *)
Lemma loop_turn fuel i w :
  i < len -> closed w = false -> faults (attempts w) = false ->
  loop (S fuel) ps (Num i) w = loop fuel ps (Num (i + c)) (afterSlice i w).
Proof.
  intros Hi Hopen Hok. unfold loop; simpl.
  rewrite chunk_size; simpl.
  fold T. fold len.
  destruct (Z.ltb_spec i len) as [_|]; [|lia].
  unfold enqueue; simpl. rewrite Hopen, Hok; simpl.
  unfold afterSlice. rewrite Hopen. reflexivity.
Qed.

(** One turn of the loop whose [enqueue] throws. *)
Lemma loop_throw fuel i w :
  i < len -> (closed w || faults (attempts w))%bool = true ->
  loop (S fuel) ps (Num i) w = Some (Throw enqueueError, afterThrow w).
Proof.
  intros Hi Hbad. unfold loop; simpl.
  rewrite chunk_size; simpl.
  fold T. fold len.
  destruct (Z.ltb_spec i len) as [_|]; [|lia].
  unfold enqueue; simpl. rewrite Hbad. reflexivity.
Qed.

(** With a chunk size of zero or less the counter never reaches the length
    of a non-empty text: the loop outlives any fuel. *)
Lemma loop_stalls fuel : forall i w,
  c <= 0 -> i <= 0 -> 0 < len -> closed w = false ->
  (forall j, faults j = false) ->
  loop fuel ps (Num i) w = None.
Proof.
  induction fuel as [|fuel IH]; intros i w Hc Hi Hlen Hopen Hok; [reflexivity|].
  rewrite loop_turn; trivial; [|lia].
  apply IH; trivial; [lia|].
  unfold afterSlice. now destruct (jsgt _ _).
Qed.

(** The loop is left as soon as the counter reaches the length. *)
Lemma loop_exit fuel i w :
  len <= i -> loop (S fuel) ps (Num i) w = Some (Normal tt, w).
Proof.
  intros Hi. unfold loop; simpl. fold T. fold len.
  destruct (Z.ltb_spec i len) as [|_]; [lia|reflexivity].
Qed.

(** From here on the chunk size is at least one. *)
Hypothesis chunk_pos : 1 <= c.

(** Iterations left when the counter is [i]: ceil((len - i) / c). *)
Definition iters (i : Z) : nat := Z.to_nat ((len - i + c - 1) / c).

Lemma iters_done (i : Z) : len <= i -> iters i = O.
Proof.
  intros H. unfold iters.
  assert ((len - i + c - 1) / c < 1) by (apply Z.div_lt_upper_bound; lia).
  lia.
Qed.

Lemma iters_more (i : Z) : i < len -> iters i = S (iters (i + c)).
Proof.
  intros H. unfold iters.
  replace (len - i + c - 1) with (len - (i + c) + c - 1 + 1 * c) by lia.
  rewrite Z.div_add by lia.
  rewrite Z2Nat.inj_add; [rewrite Nat.add_1_r; reflexivity| |lia].
  apply Z.div_pos; lia.
Qed.

(** With no fault on the way the loop runs its [iters i] turns and ends. *)
Lemma loop_runs n : forall i fuel w,
  iters i = n -> (n < fuel)%nat -> closed w = false ->
  (forall j, (j < n)%nat -> faults (attempts w + j) = false) ->
  loop fuel ps (Num i) w = Some (Normal tt, afterSlices n i w).
Proof.
  induction n as [|n IH]; intros i fuel w Hn Hfuel Hopen Hok;
    (destruct fuel as [|fuel]; [lia|]);
    destruct (Z_lt_le_dec i len) as [Hlt|Hge].
  - rewrite (iters_more i Hlt) in Hn. discriminate.
  - now apply loop_exit.
  - rewrite loop_turn; trivial.
    + simpl. apply IH.
      * rewrite (iters_more i Hlt) in Hn. congruence.
      * lia.
      * now rewrite afterSlice_closed.
      * intros j Hj. rewrite afterSlice_attempts.
        replace (S (attempts w) + j)%nat with (attempts w + S j)%nat by lia.
        apply Hok. lia.
    + rewrite <- (Nat.add_0_r (attempts w)). apply Hok. lia.
  - rewrite (iters_done i Hge) in Hn. discriminate.
Qed.

(** A first fault at the [k]-th turn stops the loop there. *)
Lemma loop_faults k : forall i fuel w,
  (k < iters i)%nat -> (k < fuel)%nat -> closed w = false ->
  (forall j, (j < k)%nat -> faults (attempts w + j) = false) ->
  faults (attempts w + k) = true ->
  loop fuel ps (Num i) w
  = Some (Throw enqueueError, afterThrow (afterSlices k i w)).
Proof.
  induction k as [|k IH]; intros i fuel w Hk Hfuel Hopen Hok Hbad;
    (destruct fuel as [|fuel]; [lia|]);
    (destruct (Z_lt_le_dec i len) as [Hlt|Hge];
     [|rewrite (iters_done i Hge) in Hk; lia]).
  - rewrite Nat.add_0_r in Hbad. apply loop_throw; trivial.
    simpl. rewrite Hbad. apply orb_true_r.
  - rewrite loop_turn; trivial.
    + simpl. apply IH.
      * rewrite (iters_more i Hlt) in Hk. lia.
      * lia.
      * now rewrite afterSlice_closed.
      * intros j Hj. rewrite afterSlice_attempts.
        replace (S (attempts w) + j)%nat with (attempts w + S j)%nat by lia.
        apply Hok. lia.
      * rewrite afterSlice_attempts.
        now replace (S (attempts w) + k)%nat with (attempts w + S k)%nat by lia.
    + rewrite <- (Nat.add_0_r (attempts w)). apply Hok. lia.
Qed.

(** Whatever the faults, the loop ends within [iters i] turns. *)
Lemma loop_ends n : forall i fuel w,
  iters i = n -> (n < fuel)%nat ->
  exists r, loop fuel ps (Num i) w = Some r.
Proof.
  induction n as [|n IH]; intros i fuel w Hn Hfuel;
    (destruct fuel as [|fuel]; [lia|]);
    destruct (Z_lt_le_dec i len) as [Hlt|Hge].
  - rewrite (iters_more i Hlt) in Hn. discriminate.
  - eexists. now apply loop_exit.
  - destruct (closed w || faults (attempts w))%bool eqn:Hf.
    + eexists. now apply loop_throw.
    + apply orb_false_elim in Hf. destruct Hf as [Hopen Hok].
      rewrite loop_turn; trivial. apply (IH (i + c)).
      * rewrite (iters_more i Hlt) in Hn. congruence.
      * lia.
  - eexists. now apply loop_exit.
Qed.

(** At most one turn per code unit. *)
Lemma iters_bound : (iters 0 <= length T)%nat.
Proof.
  unfold iters. fold len.
  assert (Hlen : 0 <= len) by (unfold len; lia).
  destruct (Z.eq_dec len 0) as [->|Hne].
  - rewrite Z.div_small by lia. simpl. lia.
  - assert ((len - 0 + c - 1) / c <= len).
    { apply Z.div_le_upper_bound; [lia|]. nia. }
    unfold len in *. lia.
Qed.

(** *** What the chunks carry *)

Lemma sliced_length n : forall i t, length (sliced n i t) = n.
Proof. induction n as [|n IH]; intros; simpl; [|rewrite IH]; reflexivity. Qed.

Lemma sliced_prefix k : forall n i t,
  (k <= n)%nat -> firstn k (sliced n i t) = sliced k i t.
Proof.
  induction k as [|k IH]; intros [|n] i t Hk; simpl; try reflexivity; try lia.
  f_equal. apply IH. lia.
Qed.

Lemma sliced_finish n : forall i t,
  Forall (fun ch => finish_reason ch = None /\ delta_content ch <> None)
         (sliced n i t).
Proof.
  induction n as [|n IH]; intros; simpl; constructor; auto.
  simpl. split; [reflexivity|discriminate].
Qed.

Lemma contents_app q1 q2 : contents (q1 ++ q2) = contents q1 ++ contents q2.
Proof. unfold contents. now rewrite flat_map_app. Qed.

Lemma contents_sliced n : forall i t,
  contents (map SseData (sliced n i t))
  = map (fun k => slice (i + Z.of_nat k * c)) (seq 0 n).
Proof.
  induction n as [|n IH]; intros i t; [reflexivity|].
  change (contents (map SseData (sliced (S n) i t)))
    with (slice i :: contents (map SseData (sliced n (i + c) (S t)))).
  rewrite IH. cbn [seq map]. f_equal.
  - f_equal. lia.
  - rewrite <- seq_shift, map_map. apply map_ext.
    intros k. f_equal. lia.
Qed.

(** The slices from offset [i] on, glued together, are the text from [i]. *)
Lemma concat_slices n : forall i,
  0 <= i -> iters i = n ->
  concat (map (fun k => slice (i + Z.of_nat k * c)) (seq 0 n))
  = skipn (Z.to_nat i) T.
Proof.
  induction n as [|n IH]; intros i Hi Hn;
    destruct (Z_lt_le_dec i len) as [Hlt|Hge];
    try (rewrite (iters_more i Hlt) in Hn; discriminate);
    try (rewrite (iters_done i Hge) in Hn; discriminate).
  - simpl. symmetry. apply skipn_all2. unfold len in Hge. lia.
  - cbn [seq map concat].
    rewrite <- seq_shift, map_map.
    rewrite (map_ext _ (fun k => slice (i + c + Z.of_nat k * c)))
      by (intros k; f_equal; lia).
    rewrite IH; [|lia|rewrite (iters_more i Hlt) in Hn; congruence].
    replace (i + Z.of_nat 0 * c) with i by lia.
    unfold slice. rewrite substring_slice by lia. fold T.
    replace (Z.to_nat (i + c)) with (Z.to_nat c + Z.to_nat i)%nat by lia.
    rewrite <- skipn_skipn. apply firstn_skipn.
Qed.

(** *** The whole callback *)

(** The events of a run without fault, the clock read [t] times before. *)
Definition cleanEvents (t : nat) : list SseEvent :=
  map SseData (sliced (iters 0) 0 t)
  ++ [SseData (finalChunk ps (clock (t + iters 0) / 1000)); SseDone].
#[local] Arguments cleanEvents : simpl never.

Lemma cleanEvents_eq t :
  cleanEvents t
  = map SseData (sliced (iters 0) 0 t)
    ++ [SseData (finalChunk ps (clock (t + iters 0) / 1000)); SseDone].
Proof. reflexivity. Qed.

Lemma start_clean fuel w :
  (iters 0 < fuel)%nat -> closed w = false ->
  (forall j, (j < iters 0 + 2)%nat -> faults (attempts w + j) = false) ->
  exists w',
    start clock faults enqueueError cfg fuel ps w = Some (Normal tt, w')
    /\ closed w' = true
    /\ queue w' = queue w ++ cleanEvents (ticks w).
Proof.
  intros Hfuel Hopen Hok.
  unfold start, tryBlock.
  fold loop. rewrite (loop_runs (iters 0) 0 fuel w); trivial;
    [|intros j Hj; apply Hok; lia].
  unfold now_seconds, enqueue; simpl.
  rewrite afterSlices_closed, afterSlices_attempts, afterSlices_ticks, Hopen.
  rewrite (Hok (iters 0)) by lia; simpl.
  replace (S (attempts w + iters 0)) with (attempts w + (iters 0 + 1))%nat by lia.
  rewrite (Hok (iters 0 + 1)%nat) by lia; simpl.
  eexists; split; [reflexivity|]. simpl. split; [reflexivity|].
  rewrite afterSlices_queue. unfold cleanEvents.
  rewrite <- !app_assoc. reflexivity.
Qed.

(** A first fault at the [k]-th call of [enqueue], inside the [try] block,
    with the call of the [catch] block succeeding. *)
Lemma start_fault fuel w k :
  (iters 0 < fuel)%nat -> closed w = false ->
  (k < iters 0 + 2)%nat ->
  (forall j, (j < k)%nat -> faults (attempts w + j) = false) ->
  faults (attempts w + k) = true ->
  faults (attempts w + S k) = false ->
  exists w',
    start clock faults enqueueError cfg fuel ps w = Some (Normal tt, w')
    /\ closed w' = true
    /\ queue w'
       = queue w ++ firstn k (cleanEvents (ticks w)) ++ [SseData (errorChunk ps)].
Proof.
  intros Hfuel Hopen Hk Hok Hbad Hnext.
  assert (Hcut : forall m, (m <= iters 0)%nat ->
            firstn m (cleanEvents (ticks w))
            = map SseData (sliced m 0 (ticks w))).
  { intros m Hm. rewrite cleanEvents_eq.
    rewrite firstn_app, length_map, sliced_length.
    replace (m - iters 0)%nat with O by lia.
    rewrite firstn_0, app_nil_r, firstn_map.
    now rewrite sliced_prefix. }
  assert (Hlast : firstn (S (iters 0)) (cleanEvents (ticks w))
            = map SseData (sliced (iters 0) 0 (ticks w))
              ++ [SseData (finalChunk ps (clock (ticks w + iters 0) / 1000))]).
  { rewrite cleanEvents_eq.
    rewrite firstn_app, length_map, sliced_length.
    rewrite firstn_all2 by (rewrite length_map, sliced_length; lia).
    now replace (S (iters 0) - iters 0)%nat with 1%nat by lia. }
  remember (firstn k (cleanEvents (ticks w))) as E eqn:HE.
  unfold start, tryBlock. fold loop.
  destruct (Nat.lt_ge_cases k (iters 0)) as [Hin|Hout].
  - rewrite (loop_faults k 0 fuel w); trivial; try lia.
    unfold enqueue, afterThrow; simpl.
    rewrite afterSlices_closed, afterSlices_attempts, Hopen.
    replace (S (attempts w + k)) with (attempts w + S k)%nat by lia.
    rewrite Hnext; simpl.
    eexists; split; [reflexivity|]. simpl. split; [reflexivity|].
    rewrite afterSlices_queue, HE, Hcut by lia.
    now rewrite <- app_assoc.
  - rewrite (loop_runs (iters 0) 0 fuel w); trivial;
      [|intros j Hj; apply Hok; lia].
    unfold now_seconds, enqueue; simpl.
    rewrite afterSlices_closed, afterSlices_attempts, afterSlices_ticks, Hopen.
    assert (Hcase : k = iters 0 \/ k = S (iters 0)) by lia.
    destruct Hcase as [Hk0|Hk1].
    + rewrite <- Hk0, Hbad; simpl.
      replace (S (attempts w + k)) with (attempts w + S k)%nat by lia.
      rewrite Hnext; simpl.
      eexists; split; [reflexivity|]. simpl. split; [reflexivity|].
      rewrite afterSlices_queue, HE, Hcut by lia.
      now rewrite <- app_assoc.
    + rewrite (Hok (iters 0)) by lia; simpl.
      replace (S (attempts w + iters 0)) with (attempts w + k)%nat by lia.
      rewrite Hbad; simpl.
      replace (S (attempts w + k)) with (attempts w + S k)%nat by lia.
      rewrite Hnext; simpl.
      eexists; split; [reflexivity|]. simpl. split; [reflexivity|].
      rewrite afterSlices_queue, HE, Hk1, Hlast.
      now rewrite <- !app_assoc.
Qed.

(** Before its last event a clean run has queued no [SseDone]. *)
Lemma clean_prefix_no_done k t :
  (k < iters 0 + 2)%nat -> ~ In SseDone (firstn k (cleanEvents t)).
Proof.
  intros Hk Hin. rewrite cleanEvents_eq, firstn_app in Hin.
  apply in_app_or in Hin. destruct Hin as [Hin|Hin].
  - rewrite firstn_map in Hin. apply in_map_iff in Hin.
    destruct Hin as (ch & Heq & _). discriminate.
  - rewrite length_map, sliced_length in Hin.
    destruct (k - iters 0)%nat as [|[|m]] eqn:Hm; simpl in Hin.
    + contradiction.
    + destruct Hin as [Heq|[]]. discriminate.
    + lia.
Qed.

(** *** Timers, clock readings and runs with several faults *)

Lemma afterSlice_timers i w :
  timers (afterSlice i w)
  = timers w ++ (if jsgt (PSEUDO_STREAM_DELAY_MS cfg) (Num 0)
                 then [PSEUDO_STREAM_DELAY_MS cfg] else []).
Proof.
  unfold afterSlice. destruct (jsgt _ _); simpl; [reflexivity|].
  now rewrite app_nil_r.
Qed.

Lemma afterSlices_timers n : forall i w,
  timers (afterSlices n i w)
  = timers w ++ (if jsgt (PSEUDO_STREAM_DELAY_MS cfg) (Num 0)
                 then repeat (PSEUDO_STREAM_DELAY_MS cfg) n else []).
Proof.
  induction n as [|n IH]; intros i w; cbn [afterSlices repeat].
  - destruct (jsgt _ _); now rewrite app_nil_r.
  - rewrite IH, afterSlice_timers.
    destruct (jsgt _ _); rewrite <- app_assoc; reflexivity.
Qed.

(** What a clean run leaves besides the queue. *)
Lemma start_clean_counts fuel w :
  (iters 0 < fuel)%nat -> closed w = false ->
  (forall j, (j < iters 0 + 2)%nat -> faults (attempts w + j) = false) ->
  exists w',
    start clock faults enqueueError cfg fuel ps w = Some (Normal tt, w')
    /\ timers w' = timers (afterSlices (iters 0) 0 w)
    /\ ticks w' = S (ticks w + iters 0)
    /\ attempts w' = (attempts w + iters 0 + 2)%nat.
Proof.
  intros Hfuel Hopen Hok.
  unfold start, tryBlock.
  fold loop. rewrite (loop_runs (iters 0) 0 fuel w); trivial;
    [|intros j Hj; apply Hok; lia].
  unfold now_seconds, enqueue; simpl.
  rewrite afterSlices_closed, afterSlices_attempts, afterSlices_ticks, Hopen.
  rewrite (Hok (iters 0)) by lia; simpl.
  replace (S (attempts w + iters 0)) with (attempts w + (iters 0 + 1))%nat by lia.
  rewrite (Hok (iters 0 + 1)%nat) by lia; simpl.
  eexists; split; [reflexivity|]. simpl. repeat split. lia.
Qed.

Lemma clean_prefix_chunks m t :
  (m <= iters 0)%nat ->
  firstn m (cleanEvents t) = map SseData (sliced m 0 t).
Proof.
  intros Hm. rewrite cleanEvents_eq.
  rewrite firstn_app, length_map, sliced_length.
  replace (m - iters 0)%nat with O by lia.
  rewrite firstn_0, app_nil_r, firstn_map.
  now rewrite sliced_prefix.
Qed.

Lemma clean_prefix_final t :
  firstn (S (iters 0)) (cleanEvents t)
  = map SseData (sliced (iters 0) 0 t)
    ++ [SseData (finalChunk ps (clock (t + iters 0) / 1000))].
Proof.
  rewrite cleanEvents_eq.
  rewrite firstn_app, length_map, sliced_length.
  rewrite firstn_all2 by (rewrite length_map, sliced_length; lia).
  now replace (S (iters 0) - iters 0)%nat with 1%nat by lia.
Qed.

Lemma clean_length t : length (cleanEvents t) = (iters 0 + 2)%nat.
Proof.
  rewrite cleanEvents_eq, length_app, length_map, sliced_length. reflexivity.
Qed.

(** A first fault at the [k]-th call of [enqueue] and a second one in the
    [catch] block: the exception leaves [start], after [finally]. *)
Lemma start_fault_twice fuel w k :
  (iters 0 < fuel)%nat -> closed w = false ->
  (k < iters 0 + 2)%nat ->
  (forall j, (j < k)%nat -> faults (attempts w + j) = false) ->
  faults (attempts w + k) = true ->
  faults (attempts w + S k) = true ->
  exists w',
    start clock faults enqueueError cfg fuel ps w
    = Some (Throw enqueueError, w')
    /\ closed w' = true
    /\ queue w' = queue w ++ firstn k (cleanEvents (ticks w)).
Proof.
  intros Hfuel Hopen Hk Hok Hbad Hnext.
  pose proof (clean_prefix_chunks) as Hcut.
  pose proof (clean_prefix_final (ticks w)) as Hlast.
  remember (firstn k (cleanEvents (ticks w))) as E eqn:HE.
  unfold start, tryBlock. fold loop.
  destruct (Nat.lt_ge_cases k (iters 0)) as [Hin|Hout].
  - rewrite (loop_faults k 0 fuel w); trivial; try lia.
    unfold enqueue, afterThrow; simpl.
    rewrite afterSlices_closed, afterSlices_attempts, Hopen.
    replace (S (attempts w + k)) with (attempts w + S k)%nat by lia.
    rewrite Hnext; simpl.
    eexists; split; [reflexivity|]. simpl. split; [reflexivity|].
    now rewrite afterSlices_queue, HE, Hcut by lia.
  - rewrite (loop_runs (iters 0) 0 fuel w); trivial;
      [|intros j Hj; apply Hok; lia].
    unfold now_seconds, enqueue; simpl.
    rewrite afterSlices_closed, afterSlices_attempts, afterSlices_ticks, Hopen.
    assert (Hcase : k = iters 0 \/ k = S (iters 0)) by lia.
    destruct Hcase as [Hk0|Hk1].
    + rewrite <- Hk0, Hbad; simpl.
      replace (S (attempts w + k)) with (attempts w + S k)%nat by lia.
      rewrite Hnext; simpl.
      eexists; split; [reflexivity|]. simpl. split; [reflexivity|].
      now rewrite afterSlices_queue, HE, Hcut by lia.
    + rewrite (Hok (iters 0)) by lia; simpl.
      replace (S (attempts w + iters 0)) with (attempts w + k)%nat by lia.
      rewrite Hbad; simpl.
      replace (S (attempts w + k)) with (attempts w + S k)%nat by lia.
      rewrite Hnext; simpl.
      eexists; split; [reflexivity|]. simpl. split; [reflexivity|].
      rewrite afterSlices_queue, HE, Hk1, Hlast.
      now rewrite <- !app_assoc.
Qed.

(** Every event of a clean run is stamped with the request. *)
Definition stamped (ev : SseEvent) : Prop :=
  match ev with
  | SseDone => True
  | SseData ch =>
      chunk_id ch = ps_requestId ps
      /\ chunk_model ch = ps_model ps
      /\ chunk_object ch = lit "chat.completion.chunk"
      /\ choice_index ch = 0
  end.

Lemma clean_stamped t : Forall stamped (cleanEvents t).
Proof.
  rewrite cleanEvents_eq. apply Forall_app. split.
  - generalize 0 at 2. generalize t.
    induction (iters 0) as [|n IH]; intros t0 i; simpl; constructor.
    + simpl. auto.
    + apply IH.
  - repeat constructor.
Qed.

End SlicingLoop.

(** *** The scenario of the specification: chunk size 2, delay 0 *)

Definition scenarioEnv : ProcessEnv :=
  {| env_API_MASTER_KEY := Some (lit "secret");
     env_UPSTREAM_URL := None;
     env_PSEUDO_STREAM_CHUNK_SIZE := Some (lit "2");
     env_PSEUDO_STREAM_DELAY_MS := Some (lit "0") |}.

Definition scenarioStream (text : jsstring) : PseudoStream :=
  createPseudoStream text (lit "req-1") (JStr (lit "askai-default-model")).

Definition noFault : nat -> bool := fun _ => false.
Definition frozenClock : nat -> Z := fun _ => 1700000000000.
Definition streamClosed : Exn := Error (lit "Invalid state: Controller is already closed").

(** The number of slices of a text of [len] code units: ceil(len / c). *)
Definition ceil_div (len c : Z) : nat := Z.to_nat ((len + c - 1) / c).

Lemma iters_ceil_div ps c :
  iters ps c 0 = ceil_div (Z.of_nat (length (ps_fullText ps))) c.
Proof. unfold iters, ceil_div. now rewrite Z.sub_0_r. Qed.

(** C1. For every text [T] and chunk size [c >= 1], a run of the emitter
    without fault returns, and the [delta.content] fields it has queued are,
    in order, the slices [T.substring(k*c, k*c + c)] for [k] below
    ceil(len(T)/c): their concatenation is [T] and there are ceil(len(T)/c)
    of them. *)
Theorem pseudo_stream_round_trip
    (clock : nat -> Z) (faults : nat -> bool) (err : Exn) (cfg : Config)
    (c : Z) (T rid : jsstring) (model : JSON) (fuel : nat) :
  PSEUDO_STREAM_CHUNK_SIZE cfg = Num c -> 1 <= c ->
  (forall j, faults j = false) ->
  (length T < fuel)%nat ->
  exists w',
    start clock faults err cfg fuel (createPseudoStream T rid model) newWire
    = Some (Normal tt, w')
    /\ contents (queue w')
       = map (fun k => substring T (Num (Z.of_nat k * c))
                         (Num (Z.of_nat k * c + c)))
           (seq 0 (ceil_div (Z.of_nat (length T)) c))
    /\ concat (contents (queue w')) = T
    /\ length (contents (queue w')) = ceil_div (Z.of_nat (length T)) c.
Proof.
  intros Hsize Hpos Hok Hfuel.
  set (ps := createPseudoStream T rid model).
  pose proof (iters_bound ps c Hpos) as Hbound.
  destruct (start_clean clock faults err cfg ps c Hsize Hpos fuel newWire)
    as (w' & Hrun & _ & Hq); trivial; [simpl in Hbound; lia|].
  exists w'. split; [exact Hrun|].
  assert (Hc : contents (queue w')
               = map (fun k => slice ps c (0 + Z.of_nat k * c))
                   (seq 0 (iters ps c 0))).
  { rewrite Hq. simpl. rewrite cleanEvents_eq, contents_app, contents_sliced.
    apply app_nil_r. }
  split; [|split].
  - rewrite Hc, iters_ceil_div. reflexivity.
  - rewrite Hc, (concat_slices ps c Hpos (iters ps c 0) 0); trivial. lia.
  - rewrite Hc, length_map, length_seq. apply iters_ceil_div.
Qed.

(** The scenario: the text "abcd" with chunk size 2 is queued as "ab" then
    "cd". *)
Lemma abcd_in_two_chunks :
  exists w',
    start frozenClock noFault streamClosed (CONFIG scenarioEnv) 5
      (scenarioStream (lit "abcd")) newWire
    = Some (Normal tt, w')
    /\ contents (queue w') = [lit "ab"; lit "cd"].
Proof.
  destruct (pseudo_stream_round_trip frozenClock noFault streamClosed
              (CONFIG scenarioEnv) 2 (lit "abcd") (lit "req-1")
              (JStr (lit "askai-default-model")) 5)
    as (w' & Hrun & Hc & _); try reflexivity.
  - lia.
  - simpl. lia.
  - exists w'. split; [exact Hrun|]. rewrite Hc. reflexivity.
Defined.

(** C2. For every text [T], the empty one included, a run without fault
    queues content chunks (none for the empty text), then exactly one chunk
    with an empty delta and [finish_reason] "stop", then exactly one
    [SseDone] marker, and closes the stream: nothing follows the marker. *)
Theorem stream_ends_with_stop_then_done
    (clock : nat -> Z) (faults : nat -> bool) (err : Exn) (cfg : Config)
    (c : Z) (T rid : jsstring) (model : JSON) (fuel : nat) :
  PSEUDO_STREAM_CHUNK_SIZE cfg = Num c -> 1 <= c ->
  (forall j, faults j = false) ->
  (length T < fuel)%nat ->
  exists w' chunks final,
    start clock faults err cfg fuel (createPseudoStream T rid model) newWire
    = Some (Normal tt, w')
    /\ closed w' = true
    /\ queue w' = map SseData chunks ++ [SseData final; SseDone]
    /\ Forall (fun ch => finish_reason ch = None /\ delta_content ch <> None)
         chunks
    /\ delta_content final = None
    /\ finish_reason final = Some (lit "stop")
    /\ (T = [] -> chunks = []).
Proof.
  intros Hsize Hpos Hok Hfuel.
  set (ps := createPseudoStream T rid model).
  pose proof (iters_bound ps c Hpos) as Hbound.
  destruct (start_clean clock faults err cfg ps c Hsize Hpos fuel newWire)
    as (w' & Hrun & Hclosed & Hq); trivial; [simpl in Hbound; lia|].
  exists w', (sliced clock ps c (iters ps c 0) 0 0),
    (finalChunk ps (clock (0 + iters ps c 0)%nat / 1000)).
  repeat split; trivial.
  - apply sliced_finish.
  - intros ->. simpl in Hbound.
    destruct (iters ps c 0); [reflexivity|lia].
Qed.

(** The empty text: no content chunk, the stop chunk, the marker. *)
Lemma empty_text_two_terminal_events :
  exists w' final,
    start frozenClock noFault streamClosed (CONFIG scenarioEnv) 1
      (scenarioStream []) newWire
    = Some (Normal tt, w')
    /\ queue w' = [SseData final; SseDone]
    /\ delta_content final = None
    /\ finish_reason final = Some (lit "stop").
Proof.
  destruct (stream_ends_with_stop_then_done frozenClock noFault streamClosed
              (CONFIG scenarioEnv) 2 [] (lit "req-1")
              (JStr (lit "askai-default-model")) 1)
    as (w' & chunks & final & Hrun & _ & Hq & _ & Hd & Hf & Hnone);
    try reflexivity.
  - lia.
  - simpl. lia.
  - exists w', final. rewrite (Hnone eq_refl) in Hq. auto.
Defined.

(** C3, as the code has it. When the first fault strikes the [k]-th call of
    [enqueue] inside the [try] block and the call of the [catch] block goes
    through, the client has received the first [k] events of the fault-free
    run, then one error chunk (content "\n[Stream Error]", [finish_reason]
    "stop"), and the stream is closed; no [SseDone] marker is queued. *)
Theorem stream_fault_error_chunk_then_close
    (clock : nat -> Z) (faults : nat -> bool) (err : Exn) (cfg : Config)
    (c : Z) (T rid : jsstring) (model : JSON) (fuel k : nat) :
  PSEUDO_STREAM_CHUNK_SIZE cfg = Num c -> 1 <= c ->
  (length T < fuel)%nat ->
  (k < ceil_div (Z.of_nat (length T)) c + 2)%nat ->
  (forall j, (j < k)%nat -> faults j = false) ->
  faults k = true ->
  faults (S k) = false ->
  exists w0 w' failure,
    start clock noFault err cfg fuel (createPseudoStream T rid model) newWire
    = Some (Normal tt, w0)
    /\ start clock faults err cfg fuel (createPseudoStream T rid model) newWire
       = Some (Normal tt, w')
    /\ queue w' = firstn k (queue w0) ++ [SseData failure]
    /\ delta_content failure = Some (10%N :: lit "[Stream Error]")
    /\ finish_reason failure = Some (lit "stop")
    /\ closed w' = true
    /\ ~ In SseDone (queue w').
Proof.
  intros Hsize Hpos Hfuel Hk Hok Hbad Hnext.
  set (ps := createPseudoStream T rid model).
  pose proof (iters_bound ps c Hpos) as Hbound.
  assert (Hceil : iters ps c 0 = ceil_div (Z.of_nat (length T)) c)
    by apply iters_ceil_div.
  rewrite <- Hceil in Hk.
  destruct (start_clean clock noFault err cfg ps c Hsize Hpos fuel newWire)
    as (w0 & Hrun0 & _ & Hq0); trivial; [simpl in Hbound; lia|].
  destruct (start_fault clock faults err cfg ps c Hsize Hpos fuel newWire k)
    as (w' & Hrun & Hclosed & Hq); trivial; [simpl in Hbound; lia|].
  exists w0, w', (errorChunk ps).
  simpl in Hq0, Hq. rewrite Hq0.
  repeat split; trivial.
  rewrite Hq. intros Hin. apply in_app_or in Hin. destruct Hin as [Hin|Hin].
  - now apply (clean_prefix_no_done clock ps c k 0).
  - destruct Hin as [Heq|[]]. discriminate.
Qed.

(** The second call of [enqueue] throws while "abcd" is streamed. *)
Definition secondCallFails : nat -> bool := fun n => Nat.eqb n 1.

Lemma fault_after_first_chunk :
  exists w',
    start frozenClock secondCallFails streamClosed (CONFIG scenarioEnv) 5
      (scenarioStream (lit "abcd")) newWire
    = Some (Normal tt, w')
    /\ contents (queue w') = [lit "ab"; 10%N :: lit "[Stream Error]"]
    /\ closed w' = true
    /\ ~ In SseDone (queue w').
Proof.
  destruct (stream_fault_error_chunk_then_close frozenClock secondCallFails
              streamClosed (CONFIG scenarioEnv) 2 (lit "abcd") (lit "req-1")
              (JStr (lit "askai-default-model")) 5 1)
    as (w0 & w' & failure & Hrun0 & Hrun & Hq & _ & _ & Hclosed & Hnone);
    try reflexivity.
  - lia.
  - simpl. lia.
  - vm_compute. lia.
  - intros j Hj. assert (j = O) as -> by lia. reflexivity.
  - exists w'. split; [exact Hrun|].
    split; [|split; assumption].
    vm_compute in Hrun. injection Hrun as <-. reflexivity.
Defined.

(** C3 as it is worded fails: after a fault the queue ends with the error
    chunk, the stream is closed and the [SseDone] marker was never queued. *)
Lemma fault_run_ends_without_done_marker :
  exists w',
    start frozenClock secondCallFails streamClosed (CONFIG scenarioEnv) 5
      (scenarioStream (lit "abcd")) newWire
    = Some (Normal tt, w')
    /\ queue w'
       = [SseData (contentChunk (scenarioStream (lit "abcd")) 1700000000
                     (lit "ab"));
          SseData (errorChunk (scenarioStream (lit "abcd")))]
    /\ closed w' = true
    /\ existsb (fun ev => match ev with SseDone => true | _ => false end)
         (queue w') = false.
Proof.
  eexists. split; [vm_compute; reflexivity|].
  repeat split.
Qed.

(** C4, as the code has it. With a chunk size of at least one the slicing
    loop ends for every text and every fault schedule, within one turn per
    code unit, and the callback returns. *)
Theorem slicing_loop_terminates
    (clock : nat -> Z) (faults : nat -> bool) (err : Exn) (cfg : Config)
    (c : Z) (ps : PseudoStream) (fuel : nat) (w : Wire) :
  PSEUDO_STREAM_CHUNK_SIZE cfg = Num c -> 1 <= c ->
  (length (ps_fullText ps) < fuel)%nat ->
  (exists r, sliceLoop clock faults err cfg fuel ps (Num 0) w = Some r)
  /\ (exists r, start clock faults err cfg fuel ps w = Some r).
Proof.
  intros Hsize Hpos Hfuel.
  pose proof (iters_bound ps c Hpos) as Hbound.
  destruct (loop_ends clock faults err cfg ps c Hsize Hpos (iters ps c 0) 0
              fuel w) as ([r w1] & Hloop); trivial; [lia|].
  split; [eauto|].
  unfold start, tryBlock. rewrite Hloop.
  destruct r as [[]|e].
  - destruct (now_seconds clock w1) as [created w2].
    destruct (enqueue faults err (SseData (finalChunk ps created)) w2)
      as [[[]|e] w3].
    + destruct (enqueue faults err SseDone w3) as [[[]|e] w4].
      * eauto.
      * destruct (enqueue faults err (SseData (errorChunk ps)) w4); eauto.
    + destruct (enqueue faults err (SseData (errorChunk ps)) w3); eauto.
  - destruct (enqueue faults err (SseData (errorChunk ps)) w1); eauto.
Qed.

Lemma abcd_slicing_terminates :
  (exists r, sliceLoop frozenClock secondCallFails streamClosed
               (CONFIG scenarioEnv) 5 (scenarioStream (lit "abcd")) (Num 0)
               newWire = Some r)
  /\ (exists r, start frozenClock secondCallFails streamClosed
                  (CONFIG scenarioEnv) 5 (scenarioStream (lit "abcd"))
                  newWire = Some r).
Proof.
  apply (slicing_loop_terminates frozenClock secondCallFails streamClosed
           (CONFIG scenarioEnv) 2 (scenarioStream (lit "abcd")) 5 newWire).
  - reflexivity.
  - lia.
  - simpl. lia.
Defined.

(** The environment sets the chunk size to "0". *)
Definition zeroEnv : ProcessEnv :=
  {| env_API_MASTER_KEY := Some (lit "secret");
     env_UPSTREAM_URL := None;
     env_PSEUDO_STREAM_CHUNK_SIZE := Some (lit "0");
     env_PSEUDO_STREAM_DELAY_MS := Some (lit "0") |}.

(** C4 as it is worded fails: the chunk size 0 is read into [CONFIG] like
    any other value, and with it the loop over the text "a" outlives every
    amount of fuel, as does the callback. *)
Lemma zero_chunk_size_accepted_and_loops :
  PSEUDO_STREAM_CHUNK_SIZE (CONFIG zeroEnv) = Num 0
  /\ (forall fuel,
        sliceLoop frozenClock noFault streamClosed (CONFIG zeroEnv) fuel
          (scenarioStream (lit "a")) (Num 0) newWire = None)
  /\ (forall fuel,
        start frozenClock noFault streamClosed (CONFIG zeroEnv) fuel
          (scenarioStream (lit "a")) newWire = None).
Proof.
  assert (Hloop : forall fuel,
            sliceLoop frozenClock noFault streamClosed (CONFIG zeroEnv) fuel
              (scenarioStream (lit "a")) (Num 0) newWire = None).
  { intros fuel.
    apply (loop_stalls frozenClock noFault streamClosed (CONFIG zeroEnv)
             (scenarioStream (lit "a")) 0 eq_refl fuel 0 newWire);
      try reflexivity; lia. }
  split; [reflexivity|]. split; [exact Hloop|].
  intros fuel. unfold start, tryBlock. now rewrite Hloop.
Qed.

(* ------------------------------------------------------------------ *)
(** *** Further behaviour of the emitter *)

(** The first fault among the first [N] calls, if there is one. *)
Lemma first_fault (f : nat -> bool) (N : nat) :
  (forall j, (j < N)%nat -> f j = false)
  \/ exists k, (k < N)%nat /\ f k = true
               /\ forall j, (j < k)%nat -> f j = false.
Proof.
  induction N as [|N IH]; [left; intros; lia|].
  destruct IH as [Hall|(k & Hk & Hbad & Hbefore)].
  - destruct (f N) eqn:HN.
    + right. exists N. repeat split; trivial. lia.
    + left. intros j Hj.
      destruct (Nat.eq_dec j N) as [->|]; [trivial|apply Hall; lia].
  - right. exists k. repeat split; trivial. lia.
Qed.

Lemma Forall_prefix {A} (P : A -> Prop) (k : nat) (l : list A) :
  Forall P l -> Forall P (firstn k l).
Proof.
  revert l; induction k as [|k IH]; intros [|a l] H; simpl; try constructor.
  - now inversion H.
  - apply IH. now inversion H.
Qed.

(** Whatever the faults, a run with chunk size at least one returns with the
    stream closed, having queued a prefix of the clean events and then at
    most the error chunk. *)
Lemma start_any_faults
    (clock : nat -> Z) (faults : nat -> bool) (err : Exn) (cfg : Config)
    (c : Z) (ps : PseudoStream) (fuel : nat) :
  PSEUDO_STREAM_CHUNK_SIZE cfg = Num c -> 1 <= c ->
  (length (ps_fullText ps) < fuel)%nat ->
  exists r w' k tail,
    start clock faults err cfg fuel ps newWire = Some (r, w')
    /\ closed w' = true
    /\ queue w' = firstn k (cleanEvents clock ps c 0) ++ tail
    /\ (tail = [] \/ tail = [SseData (errorChunk ps)])
    /\ (r = Normal tt \/ r = Throw err).
Proof.
  intros Hsize Hpos Hfuel.
  pose proof (iters_bound ps c Hpos) as Hbound.
  destruct (first_fault faults (iters ps c 0 + 2))
    as [Hnone|(k & Hk & Hbad & Hbefore)].
  - destruct (start_clean clock faults err cfg ps c Hsize Hpos fuel newWire)
      as (w' & Hrun & Hclosed & Hq); trivial; [lia|].
    exists (Normal tt), w', (iters ps c 0 + 2)%nat, [].
    repeat split; auto.
    simpl in Hq. rewrite Hq, app_nil_r.
    symmetry. apply firstn_all2. rewrite clean_length; trivial.
  - destruct (faults (S k)) eqn:Hnext.
    + destruct (start_fault_twice clock faults err cfg ps c Hsize Hpos fuel
                  newWire k) as (w' & Hrun & Hclosed & Hq); trivial; [lia|].
      exists (Throw err), w', k, [].
      repeat split; auto. simpl in Hq. now rewrite Hq, app_nil_r.
    + destruct (start_fault clock faults err cfg ps c Hsize Hpos fuel
                  newWire k) as (w' & Hrun & Hclosed & Hq); trivial; [lia|].
      exists (Normal tt), w', k, [SseData (errorChunk ps)].
      repeat split; auto.
Qed.

(** X1. With a chunk size of at least one and whatever [enqueue] calls
    throw, the callback returns, normally or with the exception of
    [enqueue], the stream is closed, and the client has received a prefix of
    the events of the fault-free run followed by at most one error chunk. *)
Theorem faulty_run_is_clean_prefix
    (clock : nat -> Z) (faults : nat -> bool) (err : Exn) (cfg : Config)
    (c : Z) (T rid : jsstring) (model : JSON) (fuel : nat) :
  PSEUDO_STREAM_CHUNK_SIZE cfg = Num c -> 1 <= c ->
  (length T < fuel)%nat ->
  exists w0 r w' k tail,
    start clock noFault err cfg fuel (createPseudoStream T rid model) newWire
    = Some (Normal tt, w0)
    /\ start clock faults err cfg fuel (createPseudoStream T rid model) newWire
       = Some (r, w')
    /\ (r = Normal tt \/ r = Throw err)
    /\ closed w' = true
    /\ queue w' = firstn k (queue w0) ++ tail
    /\ (tail = []
        \/ tail = [SseData (errorChunk (createPseudoStream T rid model))]).
Proof.
  intros Hsize Hpos Hfuel.
  set (ps := createPseudoStream T rid model).
  pose proof (iters_bound ps c Hpos) as Hbound.
  destruct (start_clean clock noFault err cfg ps c Hsize Hpos fuel newWire)
    as (w0 & Hrun0 & _ & Hq0); trivial; [simpl in Hbound; lia|].
  destruct (start_any_faults clock faults err cfg c ps fuel Hsize Hpos Hfuel)
    as (r & w' & k & tail & Hrun & Hclosed & Hq & Htail & Hr).
  exists w0, r, w', k, tail. simpl in Hq0. rewrite Hq0. auto 10.
Qed.

(** The first two calls of [enqueue] throw. *)
Definition firstTwoCallsFail : nat -> bool := fun n => Nat.ltb n 2.

Lemma nothing_sent_when_every_call_fails :
  exists w',
    start frozenClock firstTwoCallsFail streamClosed (CONFIG scenarioEnv) 5
      (scenarioStream (lit "abcd")) newWire
    = Some (Throw streamClosed, w')
    /\ queue w' = [] /\ closed w' = true.
Proof.
  destruct (faulty_run_is_clean_prefix frozenClock firstTwoCallsFail
              streamClosed (CONFIG scenarioEnv) 2 (lit "abcd") (lit "req-1")
              (JStr (lit "askai-default-model")) 5)
    as (w0 & r & w' & k & tail & _ & Hrun & _ & Hclosed & _);
    [reflexivity|lia|simpl; lia|].
  exists w'. vm_compute in Hrun. injection Hrun as <- <-.
  repeat split.
Defined.

(** X2. Whatever [enqueue] calls throw, every chunk the client receives
    carries the request's id and model, the object kind
    "chat.completion.chunk" and the choice index 0. *)
Theorem every_chunk_is_stamped
    (clock : nat -> Z) (faults : nat -> bool) (err : Exn) (cfg : Config)
    (c : Z) (T rid : jsstring) (model : JSON) (fuel : nat) :
  PSEUDO_STREAM_CHUNK_SIZE cfg = Num c -> 1 <= c ->
  (length T < fuel)%nat ->
  exists r w',
    start clock faults err cfg fuel (createPseudoStream T rid model) newWire
    = Some (r, w')
    /\ forall ch, In (SseData ch) (queue w') ->
         chunk_id ch = rid /\ chunk_model ch = model
         /\ chunk_object ch = lit "chat.completion.chunk"
         /\ choice_index ch = 0.
Proof.
  intros Hsize Hpos Hfuel.
  set (ps := createPseudoStream T rid model).
  destruct (start_any_faults clock faults err cfg c ps fuel Hsize Hpos Hfuel)
    as (r & w' & k & tail & Hrun & _ & Hq & Htail & _).
  exists r, w'. split; [exact Hrun|].
  assert (Hall : Forall (stamped ps) (queue w')).
  { rewrite Hq. apply Forall_app. split.
    - apply Forall_prefix, clean_stamped.
    - destruct Htail as [-> | ->]; repeat constructor. }
  intros ch Hin. rewrite Forall_forall in Hall. exact (Hall _ Hin).
Qed.

Lemma chunks_of_faulty_run_stamped :
  exists r w',
    start frozenClock secondCallFails streamClosed (CONFIG scenarioEnv) 5
      (scenarioStream (lit "abcd")) newWire
    = Some (r, w')
    /\ forall ch, In (SseData ch) (queue w') ->
         chunk_id ch = lit "req-1"
         /\ chunk_model ch = JStr (lit "askai-default-model")
         /\ chunk_object ch = lit "chat.completion.chunk"
         /\ choice_index ch = 0.
Proof.
  apply (every_chunk_is_stamped frozenClock secondCallFails streamClosed
           (CONFIG scenarioEnv) 2 (lit "abcd") (lit "req-1")
           (JStr (lit "askai-default-model")) 5).
  - reflexivity.
  - lia.
  - simpl. lia.
Defined.

(** X3. When the [enqueue] of the [catch] block throws as well (the first
    fault being at call [k], the next call failing too), [start] ends with
    that exception, the stream is closed all the same, and the client has
    received the first [k] events of the fault-free run and no error
    chunk. *)
Theorem second_fault_leaves_no_error_chunk
    (clock : nat -> Z) (faults : nat -> bool) (err : Exn) (cfg : Config)
    (c : Z) (T rid : jsstring) (model : JSON) (fuel k : nat) :
  PSEUDO_STREAM_CHUNK_SIZE cfg = Num c -> 1 <= c ->
  (length T < fuel)%nat ->
  (k < ceil_div (Z.of_nat (length T)) c + 2)%nat ->
  (forall j, (j < k)%nat -> faults j = false) ->
  faults k = true ->
  faults (S k) = true ->
  exists w0 w',
    start clock noFault err cfg fuel (createPseudoStream T rid model) newWire
    = Some (Normal tt, w0)
    /\ start clock faults err cfg fuel (createPseudoStream T rid model) newWire
       = Some (Throw err, w')
    /\ queue w' = firstn k (queue w0)
    /\ closed w' = true.
Proof.
  intros Hsize Hpos Hfuel Hk Hok Hbad Hnext.
  set (ps := createPseudoStream T rid model).
  pose proof (iters_bound ps c Hpos) as Hbound.
  assert (Hceil : iters ps c 0 = ceil_div (Z.of_nat (length T)) c)
    by apply iters_ceil_div.
  rewrite <- Hceil in Hk.
  destruct (start_clean clock noFault err cfg ps c Hsize Hpos fuel newWire)
    as (w0 & Hrun0 & _ & Hq0); trivial; [simpl in Hbound; lia|].
  destruct (start_fault_twice clock faults err cfg ps c Hsize Hpos fuel
              newWire k) as (w' & Hrun & Hclosed & Hq); trivial;
    [simpl in Hbound; lia|].
  exists w0, w'. simpl in Hq0, Hq. rewrite Hq0. auto.
Qed.

(** Every call of [enqueue] after the first throws. *)
Definition failsAfterFirst : nat -> bool := fun n => Nat.leb 1 n.

Lemma closed_stream_after_first_chunk :
  exists w',
    start frozenClock failsAfterFirst streamClosed (CONFIG scenarioEnv) 5
      (scenarioStream (lit "abcd")) newWire
    = Some (Throw streamClosed, w')
    /\ contents (queue w') = [lit "ab"]
    /\ closed w' = true.
Proof.
  destruct (second_fault_leaves_no_error_chunk frozenClock failsAfterFirst
              streamClosed (CONFIG scenarioEnv) 2 (lit "abcd") (lit "req-1")
              (JStr (lit "askai-default-model")) 5 1)
    as (w0 & w' & _ & Hrun & _ & Hclosed); try reflexivity.
  - lia.
  - simpl. lia.
  - vm_compute. lia.
  - intros j Hj. assert (j = O) as -> by lia. reflexivity.
  - exists w'. split; [exact Hrun|]. split; [|exact Hclosed].
    vm_compute in Hrun. injection Hrun as <-. reflexivity.
Defined.

(** X4. Pacing. In a fault-free run with chunk size at least one, a delay
    [d > 0] is awaited once after every content chunk, the last one
    included, so ceil(len/c) times; a delay that is zero, negative or NaN is
    never awaited.  The clock is read once per content chunk and once for
    the final chunk. *)
Theorem one_timer_per_content_chunk
    (clock : nat -> Z) (faults : nat -> bool) (err : Exn) (cfg : Config)
    (c : Z) (T rid : jsstring) (model : JSON) (fuel : nat) :
  PSEUDO_STREAM_CHUNK_SIZE cfg = Num c -> 1 <= c ->
  (forall j, faults j = false) ->
  (length T < fuel)%nat ->
  exists w',
    start clock faults err cfg fuel (createPseudoStream T rid model) newWire
    = Some (Normal tt, w')
    /\ (forall d, PSEUDO_STREAM_DELAY_MS cfg = Num d -> 0 < d ->
        timers w' = repeat (Num d) (ceil_div (Z.of_nat (length T)) c))
    /\ (PSEUDO_STREAM_DELAY_MS cfg = NaN
        \/ (exists d, PSEUDO_STREAM_DELAY_MS cfg = Num d /\ d <= 0) ->
        timers w' = [])
    /\ ticks w' = S (ceil_div (Z.of_nat (length T)) c).
Proof.
  intros Hsize Hpos Hok Hfuel.
  set (ps := createPseudoStream T rid model).
  pose proof (iters_bound ps c Hpos) as Hbound.
  assert (Hceil : iters ps c 0 = ceil_div (Z.of_nat (length T)) c)
    by apply iters_ceil_div.
  destruct (start_clean_counts clock faults err cfg ps c Hsize Hpos fuel
              newWire) as (w' & Hrun & Htimers & Hticks & _);
    trivial; [simpl in Hbound; lia|].
  exists w'. split; [exact Hrun|].
  rewrite afterSlices_timers in Htimers. simpl in Htimers, Hticks.
  rewrite Hceil in Htimers, Hticks.
  split; [|split; [|exact Hticks]].
  - intros d Hd Hdpos. rewrite Htimers, Hd. simpl.
    destruct (Z.ltb_spec 0 d); [reflexivity|lia].
  - intros [Hnan|(d & Hd & Hle)]; rewrite Htimers.
    + now rewrite Hnan.
    + rewrite Hd. simpl. destruct (Z.ltb_spec 0 d); [lia|reflexivity].
Qed.

(** The defaults: chunk size 2 and delay 2. *)
Definition defaultEnv : ProcessEnv :=
  {| env_API_MASTER_KEY := None; env_UPSTREAM_URL := None;
     env_PSEUDO_STREAM_CHUNK_SIZE := None;
     env_PSEUDO_STREAM_DELAY_MS := None |}.

Lemma abcde_awaits_three_timers :
  exists w',
    start frozenClock noFault streamClosed (CONFIG defaultEnv) 6
      (scenarioStream (lit "abcde")) newWire
    = Some (Normal tt, w')
    /\ timers w' = [Num 2; Num 2; Num 2]
    /\ ticks w' = 4%nat.
Proof.
  destruct (one_timer_per_content_chunk frozenClock noFault streamClosed
              (CONFIG defaultEnv) 2 (lit "abcde") (lit "req-1")
              (JStr (lit "askai-default-model")) 6)
    as (w' & Hrun & Hpos & _ & Hticks); try reflexivity.
  - lia.
  - simpl. lia.
  - exists w'. split; [exact Hrun|]. split; [|exact Hticks].
    apply (Hpos 2); [reflexivity|lia].
Defined.

(** X5. A chunk size of zero or less: on a non-empty text a fault-free run
    never leaves the slicing loop, whatever the fuel; neither the stop chunk
    nor the marker is ever queued and the stream is never closed. *)
Theorem nonpositive_chunk_size_never_returns
    (clock : nat -> Z) (faults : nat -> bool) (err : Exn) (cfg : Config)
    (c : Z) (T rid : jsstring) (model : JSON) (fuel : nat) :
  PSEUDO_STREAM_CHUNK_SIZE cfg = Num c -> c <= 0 ->
  T <> [] ->
  (forall j, faults j = false) ->
  sliceLoop clock faults err cfg fuel (createPseudoStream T rid model)
    (Num 0) newWire = None
  /\ start clock faults err cfg fuel (createPseudoStream T rid model) newWire
     = None.
Proof.
  intros Hsize Hneg Hne Hok.
  assert (Hloop : sliceLoop clock faults err cfg fuel
                    (createPseudoStream T rid model) (Num 0) newWire = None).
  { apply (loop_stalls clock faults err cfg (createPseudoStream T rid model)
             c Hsize fuel 0 newWire); trivial; try lia.
    simpl. destruct T; [contradiction|simpl; lia]. }
  split; [exact Hloop|].
  unfold start, tryBlock. now rewrite Hloop.
Qed.

(** The environment sets the chunk size to "-3". *)
Definition negativeEnv : ProcessEnv :=
  {| env_API_MASTER_KEY := None; env_UPSTREAM_URL := None;
     env_PSEUDO_STREAM_CHUNK_SIZE := Some (lit "-3");
     env_PSEUDO_STREAM_DELAY_MS := Some (lit "0") |}.

Lemma minus_three_never_returns :
  sliceLoop frozenClock noFault streamClosed (CONFIG negativeEnv) 1000
    (scenarioStream (lit "hi")) (Num 0) newWire = None
  /\ start frozenClock noFault streamClosed (CONFIG negativeEnv) 1000
       (scenarioStream (lit "hi")) newWire = None.
Proof.
  apply (nonpositive_chunk_size_never_returns frozenClock noFault
           streamClosed (CONFIG negativeEnv) (-3) (lit "hi") (lit "req-1")
           (JStr (lit "askai-default-model")) 1000).
  - reflexivity.
  - lia.
  - discriminate.
  - reflexivity.
Defined.

(** X6. A chunk size that is not a number (the environment value does not
    start with a digit): a fault-free run over a non-empty text returns, but
    the text is lost; the client receives one content chunk whose content is
    the empty string, then the stop chunk and the marker. *)
Theorem nan_chunk_size_loses_the_text
    (clock : nat -> Z) (faults : nat -> bool) (err : Exn) (cfg : Config)
    (T rid : jsstring) (model : JSON) (fuel : nat) :
  PSEUDO_STREAM_CHUNK_SIZE cfg = NaN ->
  T <> [] ->
  (forall j, faults j = false) ->
  (2 <= fuel)%nat ->
  exists w',
    start clock faults err cfg fuel (createPseudoStream T rid model) newWire
    = Some (Normal tt, w')
    /\ queue w'
       = [SseData (contentChunk (createPseudoStream T rid model)
                     (clock 0%nat / 1000) []);
          SseData (finalChunk (createPseudoStream T rid model)
                     (clock 1%nat / 1000));
          SseDone]
    /\ closed w' = true.
Proof.
  intros Hsize Hne Hok Hfuel.
  destruct fuel as [|[|fuel]]; try lia.
  destruct T as [|x T]; [contradiction|].
  unfold start, tryBlock. cbn [sliceLoop].
  rewrite Hsize. cbn [ps_fullText createPseudoStream jslt jsadd].
  assert (Hlt : (0 <? Z.of_nat (length (x :: T))) = true)
    by (apply Z.ltb_lt; simpl; lia).
  rewrite Hlt.
  unfold now_seconds, enqueue. cbn [closed attempts ticks queue newWire orb].
  rewrite !Hok. cbn [orb].
  assert (Hcut : substring (x :: T) (Num 0) NaN = []).
  { unfold substring, clamp. cbn [toInteger].
    replace (Z.min (Z.max 0 0) (Z.of_nat (length (x :: T)))) with 0 by lia.
    reflexivity. }
  rewrite Hcut.
  destruct (jsgt (PSEUDO_STREAM_DELAY_MS cfg) (Num 0));
    cbn [sleep closed attempts ticks queue timers orb];
    rewrite !Hok; cbn [orb];
    eexists; split; try reflexivity; split; reflexivity.
Qed.

(** The environment sets the chunk size to "fast". *)
Definition wordEnv : ProcessEnv :=
  {| env_API_MASTER_KEY := None; env_UPSTREAM_URL := None;
     env_PSEUDO_STREAM_CHUNK_SIZE := Some (lit "fast");
     env_PSEUDO_STREAM_DELAY_MS := Some (lit "0") |}.

Lemma the_word_fast_loses_hello :
  exists w',
    start frozenClock noFault streamClosed (CONFIG wordEnv) 2
      (scenarioStream (lit "hello")) newWire
    = Some (Normal tt, w')
    /\ contents (queue w') = [[]]
    /\ closed w' = true.
Proof.
  destruct (nan_chunk_size_loses_the_text frozenClock noFault streamClosed
              (CONFIG wordEnv) (lit "hello") (lit "req-1")
              (JStr (lit "askai-default-model")) 2)
    as (w' & Hrun & Hq & Hclosed); [reflexivity|discriminate|reflexivity|lia|].
  exists w'. split; [exact Hrun|]. split; [|exact Hclosed].
  rewrite Hq. reflexivity.
Defined.

(** X7. The empty text ends at once whatever the chunk size, be it zero,
    negative or NaN: a fault-free run queues the stop chunk and the marker
    and closes the stream, without awaiting any timer. *)
Theorem empty_text_ends_for_any_chunk_size
    (clock : nat -> Z) (faults : nat -> bool) (err : Exn) (cfg : Config)
    (rid : jsstring) (model : JSON) (fuel : nat) :
  (forall j, faults j = false) ->
  (1 <= fuel)%nat ->
  exists w',
    start clock faults err cfg fuel (createPseudoStream [] rid model) newWire
    = Some (Normal tt, w')
    /\ queue w'
       = [SseData (finalChunk (createPseudoStream [] rid model)
                     (clock 0%nat / 1000));
          SseDone]
    /\ closed w' = true
    /\ timers w' = [].
Proof.
  intros Hok Hfuel. destruct fuel as [|fuel]; [lia|].
  unfold start, tryBlock. cbn [sliceLoop].
  cbn [ps_fullText createPseudoStream length Z.of_nat jslt Z.ltb Z.compare].
  unfold now_seconds, enqueue. cbn [closed attempts ticks queue newWire orb].
  rewrite !Hok. cbn [orb].
  eexists; split; [reflexivity|]. repeat split.
Qed.

Lemma empty_text_with_chunk_size_zero :
  exists w',
    start frozenClock noFault streamClosed (CONFIG zeroEnv) 1
      (scenarioStream []) newWire
    = Some (Normal tt, w')
    /\ length (queue w') = 2%nat
    /\ closed w' = true.
Proof.
  destruct (empty_text_ends_for_any_chunk_size frozenClock noFault
              streamClosed (CONFIG zeroEnv) (lit "req-1")
              (JStr (lit "askai-default-model")) 1)
    as (w' & Hrun & Hq & Hclosed & _); [reflexivity|lia|].
  exists w'. split; [exact Hrun|]. split; [|exact Hclosed].
  rewrite Hq. reflexivity.
Defined.

(** A clean run reassembles the text (shared with the dispatcher's facts). *)
Lemma clean_run_reassembles
    (clock : nat -> Z) (faults : nat -> bool) (err : Exn) (cfg : Config)
    (c : Z) (ps : PseudoStream) (fuel : nat) :
  PSEUDO_STREAM_CHUNK_SIZE cfg = Num c -> 1 <= c ->
  (forall j, faults j = false) ->
  (length (ps_fullText ps) < fuel)%nat ->
  exists w',
    start clock faults err cfg fuel ps newWire = Some (Normal tt, w')
    /\ concat (contents (queue w')) = ps_fullText ps
    /\ closed w' = true.
Proof.
  intros Hsize Hpos Hok Hfuel.
  pose proof (iters_bound ps c Hpos) as Hbound.
  destruct (start_clean clock faults err cfg ps c Hsize Hpos fuel newWire)
    as (w' & Hrun & Hclosed & Hq); trivial; [lia|].
  exists w'. repeat split; trivial.
  rewrite Hq. simpl. rewrite cleanEvents_eq, contents_app, contents_sliced.
  rewrite app_nil_r, (concat_slices ps c Hpos (iters ps c 0) 0); trivial. lia.
Qed.

End EmitterFacts.

(* ================================================================== *)
(** ** The dispatcher *)
(* ================================================================== *)

Module DispatcherFacts.
Import JS Gateway JSFacts.

Section Requests.

Variable cfg : Config.
Variable randomUUID : jsstring.
Variable clock : nat -> Z.
Variable backend : UpstreamRequest -> Completion UpstreamResponse.
Variable nullError : Exn.

(** The response a request receives and the session it leaves. *)
Definition reply (req : Request) (s : Session) : Response :=
  fst (fetch cfg randomUUID clock backend nullError req s).

Definition after (req : Request) (s : Session) : Session :=
  snd (fetch cfg randomUUID clock backend nullError req s).

(** The headers [handleApiProxy] starts from. *)
Definition responseHeaders : Headers :=
  [(lit "Content-Type", lit "application/json");
   (lit "X-Request-ID", randomUUID);
   (lit "Access-Control-Allow-Origin", lit "*");
   (lit "Access-Control-Allow-Headers", lit "Content-Type, Authorization")].

(** The credential of a request that passes the gate. *)
Definition bearer : option jsstring :=
  Some (lit "Bearer " ++ API_MASTER_KEY cfg).

(** The gate lets through the header "Bearer <secret>" and nothing else. *)
Lemma unauthorized_false (h : option jsstring) :
  unauthorized cfg h = false <-> h = bearer.
Proof.
  unfold unauthorized, bearer. split.
  - destruct h as [[|x h]|]; try discriminate.
    intros H. apply orb_false_elim in H. destruct H as [Hp Hk].
    apply negb_false_iff in Hp, Hk.
    apply startsWith_split in Hp. apply str_eqb_eq in Hk.
    rewrite substring_from_skipn in Hk by lia.
    rewrite Hp. f_equal. f_equal. exact Hk.
  - intros ->.
    change (lit "Bearer " ++ API_MASTER_KEY cfg)
      with (66%N :: (lit "earer " ++ API_MASTER_KEY cfg)).
    change (66%N :: (lit "earer " ++ API_MASTER_KEY cfg))
      with (lit "Bearer " ++ API_MASTER_KEY cfg) at 1 2.
    rewrite startsWith_app, substring_from_skipn by lia.
    change (skipn (Z.to_nat 7) (lit "Bearer " ++ API_MASTER_KEY cfg))
      with (API_MASTER_KEY cfg).
    now rewrite str_eqb_refl.
Qed.

Lemma unauthorized_true (h : option jsstring) :
  h <> bearer -> unauthorized cfg h = true.
Proof.
  intros Hne. destruct (unauthorized cfg h) eqn:Hu; [reflexivity|].
  apply unauthorized_false in Hu. contradiction.
Qed.

(** Every path under "/v1/" goes through [handleApiProxy]. *)
Lemma fetch_v1 req s :
  startsWith (pathname req) (lit "/v1/") = true ->
  fetch cfg randomUUID clock backend nullError req s
  = match handleApiProxy cfg randomUUID clock backend nullError req s with
    | (Normal response, s') => (response, s')
    | (Throw error, s') =>
        (errorResponse (lit "Internal Server Error: " ++ message error) 500
           (lit "internal_server_error") [], s')
    end.
Proof. intros H. unfold fetch. now rewrite H. Qed.

(** The gate: no credential, no route. *)
Lemma proxy_unauthorized req s :
  method req <> lit "OPTIONS" -> authorization req <> bearer ->
  handleApiProxy cfg randomUUID clock backend nullError req s
  = (Normal (errorResponse (lit "Unauthorized") 401 (lit "invalid_api_key")
               responseHeaders), s).
Proof.
  intros Hm Ha. unfold handleApiProxy.
  apply str_eqb_neq in Hm. rewrite Hm.
  now rewrite (unauthorized_true _ Ha).
Qed.

(** An authenticated POST to the completions path reaches its handler. *)
Lemma proxy_chat req s :
  pathname req = lit "/v1/chat/completions" -> method req = lit "POST" ->
  authorization req = bearer ->
  handleApiProxy cfg randomUUID clock backend nullError req s
  = handleChatCompletions cfg clock backend nullError req randomUUID
      responseHeaders s.
Proof.
  intros Hp Hm Ha. unfold handleApiProxy.
  rewrite Hp, Hm, (proj2 (unauthorized_false _) Ha). reflexivity.
Qed.

(** What the completions handler does with an authenticated POST. *)
Lemma fetch_chat req s :
  pathname req = lit "/v1/chat/completions" -> method req = lit "POST" ->
  authorization req = bearer ->
  fetch cfg randomUUID clock backend nullError req s
  = match handleChatCompletions cfg clock backend nullError req randomUUID
            responseHeaders s with
    | (Normal response, s') => (response, s')
    | (Throw error, s') =>
        (errorResponse (lit "Internal Server Error: " ++ message error) 500
           (lit "internal_server_error") [], s')
    end.
Proof.
  intros Hp Hm Ha. rewrite fetch_v1 by (rewrite Hp; reflexivity).
  now rewrite proxy_chat.
Qed.

(** A body without a usable [messages] field is refused before the backend
    is called. *)
Lemma chat_rejects_empty req s fields :
  json req = Some (JObj fields) ->
  is_zero (length_of (or_else (lookup (lit "messages") fields) (JArr [])))
  = true ->
  handleChatCompletions cfg clock backend nullError req randomUUID
    responseHeaders s
  = (Normal (errorResponse (lit "Missing 'messages' field") 400
               (lit "invalid_request_error") responseHeaders), s).
Proof.
  intros Hj Hl. unfold handleChatCompletions. rewrite Hj.
  cbn [getProp]. unfold bind, await, try_catch. now rewrite Hl.
Qed.

(** The outbound call made for the messages [msgs]. *)
Definition outbound (msgs : JSON) : UpstreamRequest :=
  {| up_url := UPSTREAM_URL cfg;
     up_method := lit "POST";
     up_headers :=
       [(lit "accept", lit "*/*");
        (lit "content-type", lit "application/json");
        (lit "origin", lit "https://askaiquestions.net");
        (lit "referer", lit "https://askaiquestions.net/");
        (lit "user-agent",
         lit "Mozilla/5.0 (compatible; Bun/1.0; +https://bun.sh)");
        (lit "X-Request-ID", randomUUID)];
     up_website := lit "ask-ai-questions";
     up_messages := msgs |}.

Definition logged (msgs : JSON) (s : Session) : Session :=
  {| calls := calls s ++ [outbound msgs]; reads := reads s |}.

(** The backend cannot be reached. *)
Lemma chat_unreachable req s fields m ms e :
  json req = Some (JObj fields) ->
  lookup (lit "messages") fields = Some (JArr (m :: ms)) ->
  backend (outbound (JArr (m :: ms))) = Throw e ->
  handleChatCompletions cfg clock backend nullError req randomUUID
    responseHeaders s
  = (Normal (errorResponse (lit "Processing failed: " ++ message e) 502
               (lit "api_error") responseHeaders),
     logged (JArr (m :: ms)) s).
Proof.
  intros Hj Hl Hb. unfold handleChatCompletions. rewrite Hj.
  cbn [getProp]. unfold bind, await, try_catch. rewrite Hl.
  cbn [or_else truthy length_of length Z.of_nat is_zero inject_Z Qnum Z.eqb].
  unfold fetch_upstream. fold (outbound (JArr (m :: ms))). rewrite Hb.
  reflexivity.
Qed.

(** The backend answers with a status outside 200-299 and a readable body. *)
Lemma chat_status_error req s fields m ms r text :
  json req = Some (JObj fields) ->
  lookup (lit "messages") fields = Some (JArr (m :: ms)) ->
  backend (outbound (JArr (m :: ms))) = Normal r ->
  ok r = false -> up_text r = Normal text ->
  handleChatCompletions cfg clock backend nullError req randomUUID
    responseHeaders s
  = (Normal (errorResponse (lit "Upstream error: " ++ text) 502
               (lit "upstream_" ++ decimal (up_status r)) responseHeaders),
     logged (JArr (m :: ms)) s).
Proof.
  intros Hj Hl Hb Hok Ht. unfold handleChatCompletions. rewrite Hj.
  cbn [getProp]. unfold bind, await, try_catch. rewrite Hl.
  cbn [or_else truthy length_of length Z.of_nat is_zero inject_Z Qnum Z.eqb].
  unfold fetch_upstream. fold (outbound (JArr (m :: ms))). rewrite Hb.
  rewrite Hok. cbn [negb]. rewrite Ht. reflexivity.
Qed.

(** The backend answers 2xx with JSON whose [summary] is not a string. *)
Lemma chat_contract_violation req s fields m ms r data :
  json req = Some (JObj fields) ->
  lookup (lit "messages") fields = Some (JArr (m :: ms)) ->
  backend (outbound (JArr (m :: ms))) = Normal r ->
  ok r = true -> up_json r = Normal data ->
  (forall text, getProp nullError data (lit "summary")
                <> Normal (Some (JStr text))) ->
  exists msg,
    handleChatCompletions cfg clock backend nullError req randomUUID
      responseHeaders s
    = (Normal (errorResponse (lit "Processing failed: " ++ msg) 502
                 (lit "api_error") responseHeaders),
       logged (JArr (m :: ms)) s).
Proof.
  intros Hj Hl Hb Hok Hd Hs. unfold handleChatCompletions. rewrite Hj.
  cbn [getProp]. unfold bind, await, try_catch. rewrite Hl.
  cbn [or_else truthy length_of length Z.of_nat is_zero inject_Z Qnum Z.eqb].
  unfold fetch_upstream. fold (outbound (JArr (m :: ms))). rewrite Hb.
  rewrite Hok. cbn [negb]. rewrite Hd.
  destruct (getProp nullError data (lit "summary")) as [v|e] eqn:Hg.
  - destruct (is_string v) as [text|] eqn:Hv.
    + destruct v as [[]|]; try discriminate.
      injection Hv as ->. now elim (Hs text).
    + eexists. reflexivity.
  - eexists. reflexivity.
Qed.

(** *** Every path through the handlers *)

(** [headers.get(name)] *)
Fixpoint headers_get (name : jsstring) (h : Headers) : option jsstring :=
  match h with
  | [] => None
  | (k, v) :: rest => if str_eqb k name then Some v else headers_get name rest
  end.

Lemma headers_get_set_same name v h :
  headers_get name (headers_set name v h) = Some v.
Proof.
  induction h as [|[k x] h IH]; simpl.
  - now rewrite str_eqb_refl.
  - destruct (str_eqb k name) eqn:Hk; simpl; now rewrite Hk.
Qed.

Lemma headers_get_set_other name other v h :
  name <> other ->
  headers_get other (headers_set name v h) = headers_get other h.
Proof.
  intros Hne. induction h as [|[k x] h IH]; simpl.
  - apply str_eqb_neq in Hne. now rewrite Hne.
  - destruct (str_eqb k name) eqn:Hk; simpl.
    + apply str_eqb_eq in Hk. subst k.
      apply str_eqb_neq in Hne. now rewrite Hne.
    + destruct (str_eqb k other); [reflexivity|exact IH].
Qed.

(** A value that passes the emptiness test was given by the client. *)
Lemma forwarded_is_given (v : value) :
  is_zero (length_of (or_else v (JArr []))) = false ->
  v = Some (or_else v (JArr [])).
Proof.
  unfold or_else. destruct v as [x|]; [|discriminate].
  destruct (truthy (Some x)); [reflexivity|discriminate].
Qed.

(** What the completions handler can answer, and what it leaves behind. *)
Definition chat_outcome (req : Request) (s : Session)
    (out : Completion Response * Session) : Prop :=
  match fst out with
  | Throw e => json req = Some JNull /\ e = nullError /\ snd out = s
  | Normal r =>
      json req <> Some JNull
      /\ (status r = 200 \/ status r = 400 \/ status r = 502)
      /\ headers_get (lit "X-Request-ID") (headers r) = Some randomUUID
      /\ headers_get (lit "Access-Control-Allow-Origin") (headers r)
         = Some (lit "*")
      /\ (calls (snd out) = calls s
          \/ exists fields msgs,
               json req = Some (JObj fields)
               /\ lookup (lit "messages") fields = Some msgs
               /\ calls (snd out) = calls s ++ [outbound msgs])
      /\ (status r = 400 -> calls (snd out) = calls s)
  end.

Lemma chat_cases req s :
  chat_outcome req s
    (handleChatCompletions cfg clock backend nullError req randomUUID
       responseHeaders s).
Proof.
  unfold chat_outcome, handleChatCompletions.
  assert (Hquiet : forall l : list UpstreamRequest,
            l = calls s ->
            l = calls s
            \/ exists fields msgs,
                 json req = Some (JObj fields)
                 /\ lookup (lit "messages") fields = Some msgs
                 /\ l = calls s ++ [outbound msgs]) by (intros; now left).
  destruct (json req) as [requestData|] eqn:Hj;
    [|cbn; repeat split;
      solve [discriminate | intros; discriminate | auto | now apply Hquiet]].
  destruct requestData as [|b|q|str|items|fields]; cbn [getProp];
    unfold bind, await, try_catch, ret, throw;
    try (cbn; repeat split;
         solve [discriminate | intros; discriminate | auto
               | now apply Hquiet]).
  destruct (is_zero _) eqn:Hz;
    [cbn; repeat split;
     solve [discriminate | intros; discriminate | auto | now apply Hquiet]|].
  apply forwarded_is_given in Hz.
  set (msgs := or_else (lookup (lit "messages") fields) (JArr [])) in *.
  assert (Hcall : forall l : list UpstreamRequest,
            l = calls s ++ [outbound msgs] ->
            l = calls s
            \/ exists fields0 msgs0,
                 Some (JObj fields) = Some (JObj fields0)
                 /\ lookup (lit "messages") fields0 = Some msgs0
                 /\ l = calls s ++ [outbound msgs0]).
  { intros l Hl. right. exists fields, msgs. auto. }
  unfold fetch_upstream, seconds. fold (outbound msgs).
  destruct (backend (outbound msgs)) as [r|e].
  - destruct (ok r); cbn [negb].
    + destruct (up_json r) as [data|e].
      * destruct (getProp nullError data (lit "summary")) as [v|e].
        -- destruct (is_string v) as [summary|].
           ++ destruct (truthy _);
                cbn; repeat split;
                solve [discriminate | intros; discriminate | auto
                      | now apply Hcall].
           ++ cbn; repeat split;
                solve [discriminate | intros; discriminate | auto 
                      | now apply Hcall].
        -- cbn; repeat split;
             solve [discriminate | intros; discriminate | auto
                   | now apply Hcall].
      * cbn; repeat split;
          solve [discriminate | intros; discriminate | auto
                | now apply Hcall].
    + destruct (up_text r) as [text|e];
        cbn; repeat split;
        solve [discriminate | intros; discriminate | auto
              | now apply Hcall].
  - cbn; repeat split;
      solve [discriminate | intros; discriminate | auto | now apply Hcall].
Qed.

(** [handleModels] reads the clock and nothing else. *)
Lemma models_listing (names : list jsstring) : forall s,
  exists data,
    mapM (fun name =>
            created <- seconds clock ;;
            ret {| model_id := name;
                   model_object := lit "model";
                   model_created := created;
                   model_owned_by := lit "askai-project" |}) names s
    = (Normal data,
       {| calls := calls s; reads := (reads s + length names)%nat |})
    /\ map model_id data = names
    /\ map model_created data
       = map (fun k => clock (reads s + k)%nat / 1000) (seq 0 (length names))
    /\ Forall (fun e => model_object e = lit "model"
                        /\ model_owned_by e = lit "askai-project") data.
Proof.
  induction names as [|name names IH]; intros s.
  - exists []. cbn. rewrite Nat.add_0_r. destruct s. repeat split. constructor.
  - cbn [mapM]. unfold bind at 1 2. unfold seconds at 1. unfold ret at 1.
    unfold bind at 1.
    destruct (IH {| calls := calls s; reads := S (reads s) |})
      as (data & Hrun & Hids & Hcreated & Hall).
    rewrite Hrun. unfold ret.
    eexists. split; [|split; [|split]].
    + cbn [calls reads length].
      replace (S (reads s) + length names)%nat
        with (reads s + S (length names))%nat by lia.
      reflexivity.
    + cbn [map model_id]. now rewrite Hids.
    + cbn [map model_created length seq]. rewrite Hcreated.
      rewrite Nat.add_0_r. f_equal.
      rewrite <- seq_shift, map_map. apply map_ext.
      intros k. cbn [reads]. do 2 f_equal. lia.
    + constructor; [split; reflexivity|exact Hall].
Qed.

(** Whatever the backend does, a usable [messages] value is sent to it
    once, as it is. *)
Lemma chat_forwards req s fields msgs :
  json req = Some (JObj fields) ->
  lookup (lit "messages") fields = Some msgs ->
  truthy (Some msgs) = true ->
  is_zero (length_of msgs) = false ->
  calls (snd (handleChatCompletions cfg clock backend nullError req
                randomUUID responseHeaders s))
  = calls s ++ [outbound msgs].
Proof.
  intros Hj Hl Ht Hz. unfold handleChatCompletions. rewrite Hj.
  cbn [getProp]. unfold bind, await, try_catch, ret, throw. rewrite Hl.
  assert (Hor : or_else (Some msgs) (JArr []) = msgs)
    by (unfold or_else; now rewrite Ht).
  rewrite !Hor, Hz.
  unfold fetch_upstream, seconds. fold (outbound msgs).
  destruct (backend (outbound msgs)) as [r|e]; [|reflexivity].
  destruct (ok r); cbn [negb].
  - destruct (up_json r) as [data|e]; [|reflexivity].
    destruct (getProp nullError data (lit "summary")) as [v|e]; [|reflexivity].
    destruct (is_string v) as [summary|]; [|reflexivity].
    destruct (truthy (Some (or_else (lookup (lit "stream") fields)
                              (JBool false)))); reflexivity.
  - destruct (up_text r) as [text|e]; reflexivity.
Qed.

(** The model named in the answer. *)
Definition answered_model (fields : list (jsstring * JSON)) : JSON :=
  or_else (lookup (lit "model") fields) (JStr (DEFAULT_MODEL cfg)).

(** The backend delivers a summary and the client did not ask for a
    stream. *)
Lemma chat_completes req s fields m ms r data summary :
  json req = Some (JObj fields) ->
  lookup (lit "messages") fields = Some (JArr (m :: ms)) ->
  backend (outbound (JArr (m :: ms))) = Normal r ->
  ok r = true -> up_json r = Normal data ->
  getProp nullError data (lit "summary") = Normal (Some (JStr summary)) ->
  truthy (lookup (lit "stream") fields) = false ->
  handleChatCompletions cfg clock backend nullError req randomUUID
    responseHeaders s
  = (Normal {| status := 200; headers := responseHeaders;
               body := BodyCompletion
                 {| completion_id := randomUUID;
                    completion_object := lit "chat.completion";
                    completion_created := clock (reads s) / 1000;
                    completion_model := answered_model fields;
                    message_role := lit "assistant";
                    message_content := summary;
                    completion_finish_reason := lit "stop";
                    usage_prompt_tokens := 0;
                    usage_completion_tokens := 0;
                    usage_total_tokens := 0 |} |},
     {| calls := calls s ++ [outbound (JArr (m :: ms))];
        reads := S (reads s) |}).
Proof.
  intros Hj Hl Hb Hok Hd Hs Hstream.
  assert (Hflag : truthy (Some (or_else (lookup (lit "stream") fields)
                                  (JBool false))) = false).
  { unfold or_else. destruct (lookup (lit "stream") fields) as [x|];
      [|reflexivity]. now rewrite Hstream. }
  unfold handleChatCompletions. rewrite Hj.
  cbn [getProp]. unfold bind, await, try_catch, ret, throw. rewrite Hl.
  cbv zeta. rewrite Hflag.
  cbn [or_else truthy length_of length Z.of_nat is_zero inject_Z Qnum Z.eqb].
  unfold fetch_upstream, seconds. fold (outbound (JArr (m :: ms))).
  rewrite Hb, Hok. cbn [negb]. rewrite Hd, Hs. reflexivity.
Qed.

(** The backend delivers a summary and the client asked for a stream. *)
Lemma chat_streams req s fields m ms r data summary :
  json req = Some (JObj fields) ->
  lookup (lit "messages") fields = Some (JArr (m :: ms)) ->
  backend (outbound (JArr (m :: ms))) = Normal r ->
  ok r = true -> up_json r = Normal data ->
  getProp nullError data (lit "summary") = Normal (Some (JStr summary)) ->
  truthy (lookup (lit "stream") fields) = true ->
  handleChatCompletions cfg clock backend nullError req randomUUID
    responseHeaders s
  = (Normal {| status := 200;
               headers :=
                 headers_set (lit "Connection") (lit "keep-alive")
                   (headers_set (lit "Cache-Control") (lit "no-cache")
                      (headers_set (lit "Content-Type")
                         (lit "text/event-stream") responseHeaders));
               body := BodyStream
                 (createPseudoStream summary randomUUID
                    (answered_model fields)) |},
     {| calls := calls s ++ [outbound (JArr (m :: ms))];
        reads := reads s |}).
Proof.
  intros Hj Hl Hb Hok Hd Hs Hstream.
  assert (Hflag : truthy (Some (or_else (lookup (lit "stream") fields)
                                  (JBool false))) = true).
  { unfold or_else. destruct (lookup (lit "stream") fields) as [x|];
      [|discriminate]. now rewrite Hstream. }
  unfold handleChatCompletions. rewrite Hj.
  cbn [getProp]. unfold bind, await, try_catch, ret, throw. rewrite Hl.
  cbv zeta. rewrite Hflag.
  cbn [or_else truthy length_of length Z.of_nat is_zero inject_Z Qnum Z.eqb].
  unfold fetch_upstream, seconds. fold (outbound (JArr (m :: ms))).
  rewrite Hb, Hok. cbn [negb]. rewrite Hd, Hs. reflexivity.
Qed.

(** An exception between the outbound call and the answer is caught by the
    handler's own [catch]. *)
Lemma chat_catches req s fields m ms r e :
  json req = Some (JObj fields) ->
  lookup (lit "messages") fields = Some (JArr (m :: ms)) ->
  backend (outbound (JArr (m :: ms))) = Normal r ->
  (ok r = false /\ up_text r = Throw e)
  \/ (ok r = true /\ up_json r = Throw e)
  \/ (ok r = true /\ up_json r = Normal JNull /\ e = nullError) ->
  handleChatCompletions cfg clock backend nullError req randomUUID
    responseHeaders s
  = (Normal (errorResponse (lit "Processing failed: " ++ message e) 502
               (lit "api_error") responseHeaders),
     logged (JArr (m :: ms)) s).
Proof.
  intros Hj Hl Hb Hcase. unfold handleChatCompletions. rewrite Hj.
  cbn [getProp]. unfold bind, await, try_catch, ret, throw. rewrite Hl.
  cbn [or_else truthy length_of length Z.of_nat is_zero inject_Z Qnum Z.eqb].
  unfold fetch_upstream. fold (outbound (JArr (m :: ms))). rewrite Hb.
  destruct Hcase as [[Hok Ht]|[[Hok Hd]|(Hok & Hd & ->)]];
    rewrite Hok; cbn [negb].
  - now rewrite Ht.
  - now rewrite Hd.
  - now rewrite Hd.
Qed.

(** The three kinds of request [handleApiProxy] tells apart once the
    credential is accepted. *)
Lemma proxy_models req s :
  pathname req = lit "/v1/models" -> method req = lit "GET" ->
  authorization req = bearer ->
  handleApiProxy cfg randomUUID clock backend nullError req s
  = handleModels cfg clock responseHeaders s.
Proof.
  intros Hp Hm Ha. unfold handleApiProxy.
  rewrite Hp, Hm, (proj2 (unauthorized_false _) Ha). reflexivity.
Qed.

Lemma proxy_preflight req s :
  method req = lit "OPTIONS" ->
  handleApiProxy cfg randomUUID clock backend nullError req s
  = (Normal {| status := 204; headers := responseHeaders; body := BodyNull |},
     s).
Proof. intros Hm. unfold handleApiProxy. now rewrite Hm. Qed.

(** Every way through [handleApiProxy]. *)
Lemma proxy_cases req s :
  method req = lit "OPTIONS"
  \/ (method req <> lit "OPTIONS" /\ authorization req <> bearer)
  \/ (method req <> lit "OPTIONS" /\ authorization req = bearer
      /\ pathname req = lit "/v1/models" /\ method req = lit "GET")
  \/ (method req <> lit "OPTIONS" /\ authorization req = bearer
      /\ pathname req = lit "/v1/chat/completions"
      /\ method req = lit "POST")
  \/ (method req <> lit "OPTIONS" /\ authorization req = bearer
      /\ ~ (pathname req = lit "/v1/chat/completions"
            /\ method req = lit "POST")
      /\ handleApiProxy cfg randomUUID clock backend nullError req s
         = (Normal (errorResponse
                      (lit "Method " ++ method req ++ lit " not allowed for "
                         ++ pathname req)
                      405 (lit "method_not_allowed") responseHeaders), s)).
Proof.
  unfold handleApiProxy.
  destruct (str_eqb (method req) (lit "OPTIONS")) eqn:Hm;
    [left; now apply str_eqb_eq|].
  apply str_eqb_neq in Hm. right.
  destruct (unauthorized cfg (authorization req)) eqn:Ha.
  - left. split; [exact Hm|]. intros Hb.
    apply unauthorized_false in Hb. congruence.
  - apply unauthorized_false in Ha. right.
    destruct (str_eqb (pathname req) (lit "/v1/models")
              && str_eqb (method req) (lit "GET"))%bool eqn:H1.
    + left. apply andb_true_iff in H1. rewrite !str_eqb_eq in H1. tauto.
    + right.
      destruct (str_eqb (pathname req) (lit "/v1/chat/completions")
                && str_eqb (method req) (lit "POST"))%bool eqn:H2.
      * left. apply andb_true_iff in H2. rewrite !str_eqb_eq in H2. tauto.
      * right. repeat split; trivial.
        intros [Hp Hpost]. rewrite Hp, Hpost in H2. discriminate.
Qed.

(** [handleModels], run. *)
Lemma models_run s :
  exists data,
    handleModels cfg clock responseHeaders s
    = (Normal {| status := 200; headers := responseHeaders;
                 body := BodyModels (lit "list") data |},
       {| calls := calls s;
          reads := (reads s + length (KNOWN_MODELS cfg))%nat |})
    /\ map model_id data = KNOWN_MODELS cfg
    /\ map model_created data
       = map (fun k => clock (reads s + k)%nat / 1000)
           (seq 0 (length (KNOWN_MODELS cfg)))
    /\ Forall (fun e => model_object e = lit "model"
                        /\ model_owned_by e = lit "askai-project") data.
Proof.
  destruct (models_listing (KNOWN_MODELS cfg) s)
    as (data & Hrun & Hids & Hcreated & Hall).
  exists data. split; [|auto].
  unfold handleModels. unfold bind at 1. now rewrite Hrun.
Qed.

(** Every way through the paths under "/v1/": the preflight, the refusal,
    an answer of a handler, or the exception of a [null] body. *)
Lemma v1_paths req s :
  startsWith (pathname req) (lit "/v1/") = true ->
  (method req = lit "OPTIONS" /\ status (reply req s) = 204
   /\ headers (reply req s) = responseHeaders /\ after req s = s)
  \/ (method req <> lit "OPTIONS" /\ authorization req <> bearer
      /\ status (reply req s) = 401 /\ after req s = s
      /\ headers_get (lit "X-Request-ID") (headers (reply req s))
         = Some randomUUID)
  \/ (method req <> lit "OPTIONS" /\ authorization req = bearer
      /\ (status (reply req s) = 200 \/ status (reply req s) = 400
          \/ status (reply req s) = 405 \/ status (reply req s) = 502)
      /\ headers_get (lit "X-Request-ID") (headers (reply req s))
         = Some randomUUID
      /\ (pathname req = lit "/v1/chat/completions" ->
          method req = lit "POST" -> json req <> Some JNull)
      /\ (calls (after req s) = calls s
          \/ (pathname req = lit "/v1/chat/completions"
              /\ method req = lit "POST"
              /\ exists fields msgs,
                   json req = Some (JObj fields)
                   /\ lookup (lit "messages") fields = Some msgs
                   /\ calls (after req s) = calls s ++ [outbound msgs])))
  \/ (method req = lit "POST" /\ authorization req = bearer
      /\ pathname req = lit "/v1/chat/completions"
      /\ json req = Some JNull
      /\ reply req s
         = errorResponse (lit "Internal Server Error: " ++ message nullError)
             500 (lit "internal_server_error") []
      /\ after req s = s).
Proof.
  intros Hv1. unfold reply, after. rewrite fetch_v1 by assumption.
  destruct (proxy_cases req s)
    as [Hm|[[Hm Ha]|[(Hm & Ha & Hp & Hg)|[(Hm & Ha & Hp & Hpost)
                                          |(Hm & Ha & Hroute & Hrun)]]]].
  - left. rewrite proxy_preflight by assumption. auto.
  - right; left. rewrite proxy_unauthorized by assumption. auto 6.
  - right; right; left. rewrite proxy_models by assumption.
    destruct (models_run s) as (data & -> & _).
    repeat split; auto.
    intros Hp'. rewrite Hp in Hp'. discriminate.
  - rewrite proxy_chat by assumption.
    pose proof (chat_cases req s) as Hc. unfold chat_outcome in Hc.
    destruct (handleChatCompletions cfg clock backend nullError req
                randomUUID responseHeaders s) as [[r|e] s'];
      cbn [fst snd] in Hc |- *.
    + right; right; left.
      destruct Hc as (Hnn & Hst & Hid & _ & Hcalls & _).
      repeat split; auto.
      * tauto.
      * destruct Hcalls as [Hq|Hsent]; [now left|right; auto].
    + right; right; right.
      destruct Hc as (Hj & -> & ->). auto 7.
  - right; right; left. rewrite Hrun.
    repeat split; auto.
Qed.

End Requests.

(** *** Fixtures *)

Definition servedConfig : Config :=
  CONFIG {| env_API_MASTER_KEY := Some (lit "secret");
            env_UPSTREAM_URL := None;
            env_PSEUDO_STREAM_CHUNK_SIZE := None;
            env_PSEUDO_STREAM_DELAY_MS := None |}.

Definition uuid0 : jsstring := lit "3f0c8a52-6f0e-4c53-9d43-0b8c2f1a7e11".
Definition clock0 : nat -> Z := fun _ => 1700000000000.
Definition typeError : Exn := Error (lit "null is not an object").

Definition hi : JSON :=
  JObj [(lit "role", JStr (lit "user")); (lit "content", JStr (lit "hi"))].

Definition chatRequest (auth : option jsstring) (body : option JSON) : Request :=
  {| method := lit "POST"; pathname := lit "/v1/chat/completions";
     authorization := auth; json := body |}.

Definition goodAuth : option jsstring := Some (lit "Bearer secret").

Definition answering (r : UpstreamResponse)
  : UpstreamRequest -> Completion UpstreamResponse := fun _ => Normal r.

Definition unreachable : UpstreamRequest -> Completion UpstreamResponse :=
  fun _ => Throw (Error (lit "Unable to connect")).

Definition http (code : Z) (text : jsstring) (parsed : Completion JSON)
  : UpstreamResponse :=
  {| up_status := code; up_text := Normal text; up_json := parsed |}.

(** C6. A request to /v1/models or /v1/chat/completions whose method is not
    OPTIONS and whose Authorization header is not exactly "Bearer " followed
    by the configured secret (the header is absent, is not a Bearer
    credential, or carries another token) is answered 401 with code
    invalid_api_key, and the session has no new outbound call. *)
Theorem bad_credential_gets_401
    (cfg : Config) (uuid : jsstring) (clock : nat -> Z)
    (backend : UpstreamRequest -> Completion UpstreamResponse)
    (nullError : Exn) (req : Request) (s : Session) :
  pathname req = lit "/v1/models"
  \/ pathname req = lit "/v1/chat/completions" ->
  method req <> lit "OPTIONS" ->
  authorization req <> Some (lit "Bearer " ++ API_MASTER_KEY cfg) ->
  status (reply cfg uuid clock backend nullError req s) = 401
  /\ error_code (reply cfg uuid clock backend nullError req s)
     = Some (lit "invalid_api_key")
  /\ calls (after cfg uuid clock backend nullError req s) = calls s.
Proof.
  intros Hp Hm Ha. unfold reply, after.
  rewrite fetch_v1 by (destruct Hp as [-> | ->]; reflexivity).
  rewrite proxy_unauthorized by assumption.
  repeat split.
Qed.

(** The three ways of lacking the credential, on the completions path. *)
Lemma no_header_wrong_scheme_wrong_token :
  status (reply servedConfig uuid0 clock0 unreachable typeError
            (chatRequest None (Some (JObj [(lit "messages", JArr [hi])])))
            newSession) = 401
  /\ status (reply servedConfig uuid0 clock0 unreachable typeError
               (chatRequest (Some (lit "Basic secret")) None) newSession) = 401
  /\ status (reply servedConfig uuid0 clock0 unreachable typeError
               (chatRequest (Some (lit "Bearer secret2")) None) newSession)
     = 401.
Proof.
  split; [|split];
    apply (bad_credential_gets_401 servedConfig uuid0 clock0 unreachable
             typeError);
    solve [right; reflexivity | discriminate].
Defined.

(** C7. An authenticated POST /v1/chat/completions whose body is not JSON,
    or is an object whose [messages] is the empty array, is answered 400
    with code invalid_request_error, and the session has no new outbound
    call. *)
Theorem empty_messages_or_bad_json_gets_400
    (cfg : Config) (uuid : jsstring) (clock : nat -> Z)
    (backend : UpstreamRequest -> Completion UpstreamResponse)
    (nullError : Exn) (req : Request) (s : Session) :
  pathname req = lit "/v1/chat/completions" -> method req = lit "POST" ->
  authorization req = Some (lit "Bearer " ++ API_MASTER_KEY cfg) ->
  json req = None
  \/ (exists fields, json req = Some (JObj fields)
                     /\ lookup (lit "messages") fields = Some (JArr [])) ->
  status (reply cfg uuid clock backend nullError req s) = 400
  /\ error_code (reply cfg uuid clock backend nullError req s)
     = Some (lit "invalid_request_error")
  /\ calls (after cfg uuid clock backend nullError req s) = calls s.
Proof.
  intros Hp Hm Ha Hbody. unfold reply, after.
  rewrite fetch_chat by assumption.
  destruct Hbody as [Hnone|(fields & Hj & Hl)].
  - unfold handleChatCompletions. rewrite Hnone. repeat split.
  - rewrite (chat_rejects_empty cfg uuid clock backend nullError req s fields)
      by (trivial; now rewrite Hl).
    repeat split.
Qed.

Lemma empty_array_and_garbage_rejected :
  (status (reply servedConfig uuid0 clock0 unreachable typeError
             (chatRequest goodAuth (Some (JObj [(lit "messages", JArr [])])))
             newSession) = 400
   /\ calls (after servedConfig uuid0 clock0 unreachable typeError
               (chatRequest goodAuth (Some (JObj [(lit "messages", JArr [])])))
               newSession) = [])
  /\ status (reply servedConfig uuid0 clock0 unreachable typeError
               (chatRequest goodAuth None) newSession) = 400.
Proof.
  split; [split|].
  - apply (empty_messages_or_bad_json_gets_400 servedConfig uuid0 clock0
             unreachable typeError); try reflexivity.
    right. eexists. split; reflexivity.
  - apply (empty_messages_or_bad_json_gets_400 servedConfig uuid0 clock0
             unreachable typeError
             (chatRequest goodAuth (Some (JObj [(lit "messages", JArr [])])))
             newSession); try reflexivity.
    right. eexists. split; reflexivity.
  - apply (empty_messages_or_bad_json_gets_400 servedConfig uuid0 clock0
             unreachable typeError); try reflexivity.
    left. reflexivity.
Defined.

(** The same request with [messages] set to the empty array. *)
Definition with_empty_messages (req : Request) (fields : list (jsstring * JSON))
  : Request :=
  {| method := method req; pathname := pathname req;
     authorization := authorization req;
     json := Some (JObj ((lit "messages", JArr []) :: fields)) |}.

(** C10. An authenticated POST /v1/chat/completions whose JSON object has no
    [messages] field, or has it null, is answered exactly like the same
    request with [messages] set to the empty array: 400 with code
    invalid_request_error, and no outbound call. *)
Theorem missing_messages_like_empty_array
    (cfg : Config) (uuid : jsstring) (clock : nat -> Z)
    (backend : UpstreamRequest -> Completion UpstreamResponse)
    (nullError : Exn) (req : Request) (s : Session)
    (fields : list (jsstring * JSON)) :
  pathname req = lit "/v1/chat/completions" -> method req = lit "POST" ->
  authorization req = Some (lit "Bearer " ++ API_MASTER_KEY cfg) ->
  json req = Some (JObj fields) ->
  lookup (lit "messages") fields = None
  \/ lookup (lit "messages") fields = Some JNull ->
  fetch cfg uuid clock backend nullError req s
  = fetch cfg uuid clock backend nullError (with_empty_messages req fields) s
  /\ status (reply cfg uuid clock backend nullError req s) = 400
  /\ error_code (reply cfg uuid clock backend nullError req s)
     = Some (lit "invalid_request_error")
  /\ calls (after cfg uuid clock backend nullError req s) = calls s.
Proof.
  intros Hp Hm Ha Hj Hl. unfold reply, after.
  rewrite !fetch_chat by assumption.
  rewrite (chat_rejects_empty cfg uuid clock backend nullError req s fields)
    by (trivial; destruct Hl as [-> | ->]; reflexivity).
  rewrite (chat_rejects_empty cfg uuid clock backend nullError
             (with_empty_messages req fields) s
             ((lit "messages", JArr []) :: fields))
    by reflexivity.
  repeat split.
Qed.

Lemma absent_and_null_messages_rejected :
  (status (reply servedConfig uuid0 clock0 unreachable typeError
             (chatRequest goodAuth (Some (JObj [(lit "stream", JBool true)])))
             newSession) = 400
   /\ calls (after servedConfig uuid0 clock0 unreachable typeError
               (chatRequest goodAuth (Some (JObj [(lit "stream", JBool true)])))
               newSession) = [])
  /\ status (reply servedConfig uuid0 clock0 unreachable typeError
               (chatRequest goodAuth (Some (JObj [(lit "messages", JNull)])))
               newSession) = 400.
Proof.
  split; [split|].
  - apply (missing_messages_like_empty_array servedConfig uuid0 clock0
             unreachable typeError
             (chatRequest goodAuth (Some (JObj [(lit "stream", JBool true)])))
             newSession [(lit "stream", JBool true)]); try reflexivity.
    left. reflexivity.
  - apply (missing_messages_like_empty_array servedConfig uuid0 clock0
             unreachable typeError
             (chatRequest goodAuth (Some (JObj [(lit "stream", JBool true)])))
             newSession [(lit "stream", JBool true)]); try reflexivity.
    left. reflexivity.
  - apply (missing_messages_like_empty_array servedConfig uuid0 clock0
             unreachable typeError
             (chatRequest goodAuth (Some (JObj [(lit "messages", JNull)])))
             newSession [(lit "messages", JNull)]); try reflexivity.
    right. reflexivity.
Defined.

(** C8. When the backend answers an authenticated, non-empty completions
    request with status 500 and the body text [text], the client receives
    502, the code upstream_500 and the message "Upstream error: " followed by
    [text]; one outbound call was made. *)
Theorem upstream_500_becomes_502
    (cfg : Config) (uuid : jsstring) (clock : nat -> Z)
    (backend : UpstreamRequest -> Completion UpstreamResponse)
    (nullError : Exn) (req : Request) (s : Session)
    (fields : list (jsstring * JSON)) (m : JSON) (ms : list JSON)
    (r : UpstreamResponse) (text : jsstring) :
  pathname req = lit "/v1/chat/completions" -> method req = lit "POST" ->
  authorization req = Some (lit "Bearer " ++ API_MASTER_KEY cfg) ->
  json req = Some (JObj fields) ->
  lookup (lit "messages") fields = Some (JArr (m :: ms)) ->
  (forall call, backend call = Normal r) ->
  up_status r = 500 -> up_text r = Normal text ->
  status (reply cfg uuid clock backend nullError req s) = 502
  /\ error_code (reply cfg uuid clock backend nullError req s)
     = Some (lit "upstream_500")
  /\ error_message (reply cfg uuid clock backend nullError req s)
     = Some (lit "Upstream error: " ++ text)
  /\ length (calls (after cfg uuid clock backend nullError req s))
     = S (length (calls s)).
Proof.
  intros Hp Hm Ha Hj Hl Hb Hs Ht. unfold reply, after.
  rewrite fetch_chat by assumption.
  rewrite (chat_status_error cfg uuid clock backend nullError req s fields
             m ms r text); trivial.
  - rewrite Hs. repeat split.
    simpl. rewrite length_app. simpl. lia.
  - unfold ok. now rewrite Hs.
Qed.

Lemma internal_error_body_surfaced :
  status (reply servedConfig uuid0 clock0
            (answering (http 500 (lit "Internal Server Error") (Throw typeError)))
            typeError
            (chatRequest goodAuth (Some (JObj [(lit "messages", JArr [hi])])))
            newSession) = 502
  /\ error_code (reply servedConfig uuid0 clock0
            (answering (http 500 (lit "Internal Server Error") (Throw typeError)))
            typeError
            (chatRequest goodAuth (Some (JObj [(lit "messages", JArr [hi])])))
            newSession) = Some (lit "upstream_500")
  /\ error_message (reply servedConfig uuid0 clock0
            (answering (http 500 (lit "Internal Server Error") (Throw typeError)))
            typeError
            (chatRequest goodAuth (Some (JObj [(lit "messages", JArr [hi])])))
            newSession)
     = Some (lit "Upstream error: Internal Server Error").
Proof.
  destruct (upstream_500_becomes_502 servedConfig uuid0 clock0
              (answering (http 500 (lit "Internal Server Error")
                            (Throw typeError)))
              typeError
              (chatRequest goodAuth (Some (JObj [(lit "messages", JArr [hi])])))
              newSession [(lit "messages", JArr [hi])] hi []
              (http 500 (lit "Internal Server Error") (Throw typeError))
              (lit "Internal Server Error"))
    as (H1 & H2 & H3 & _); try reflexivity.
  auto.
Defined.

(** C5, as the code has it. For an authenticated, non-empty completions
    request each of the three upstream failures is answered 502: a status
    outside 200-299 with the code "upstream_" followed by the status, which
    is never "api_error"; an unreachable backend and a 2xx answer whose
    [summary] is not a string both with the code "api_error". *)
Theorem upstream_failures_become_502
    (cfg : Config) (uuid : jsstring) (clock : nat -> Z)
    (backend : UpstreamRequest -> Completion UpstreamResponse)
    (nullError : Exn) (req : Request) (s : Session)
    (fields : list (jsstring * JSON)) (m : JSON) (ms : list JSON)
    (outcome : Completion UpstreamResponse) :
  pathname req = lit "/v1/chat/completions" -> method req = lit "POST" ->
  authorization req = Some (lit "Bearer " ++ API_MASTER_KEY cfg) ->
  json req = Some (JObj fields) ->
  lookup (lit "messages") fields = Some (JArr (m :: ms)) ->
  (forall call, backend call = outcome) ->
  (forall e, outcome = Throw e ->
     status (reply cfg uuid clock backend nullError req s) = 502
     /\ error_code (reply cfg uuid clock backend nullError req s)
        = Some (lit "api_error"))
  /\ (forall r text,
        outcome = Normal r -> ok r = false -> up_text r = Normal text ->
        status (reply cfg uuid clock backend nullError req s) = 502
        /\ error_code (reply cfg uuid clock backend nullError req s)
           = Some (lit "upstream_" ++ decimal (up_status r))
        /\ lit "upstream_" ++ decimal (up_status r) <> lit "api_error")
  /\ (forall r data,
        outcome = Normal r -> ok r = true -> up_json r = Normal data ->
        (forall text, getProp nullError data (lit "summary")
                      <> Normal (Some (JStr text))) ->
        status (reply cfg uuid clock backend nullError req s) = 502
        /\ error_code (reply cfg uuid clock backend nullError req s)
           = Some (lit "api_error")).
Proof.
  intros Hp Hm Ha Hj Hl Hb. unfold reply.
  rewrite fetch_chat by assumption.
  split; [|split].
  - intros e He.
    rewrite (chat_unreachable cfg uuid clock backend nullError req s fields
               m ms e); trivial; [|now rewrite Hb].
    split; reflexivity.
  - intros r text Hr Hok Ht.
    rewrite (chat_status_error cfg uuid clock backend nullError req s fields
               m ms r text); trivial; [|now rewrite Hb].
    repeat split. discriminate.
  - intros r data Hr Hok Hd Hs.
    destruct (chat_contract_violation cfg uuid clock backend nullError req s
                fields m ms r data) as (msg & ->); trivial; [now rewrite Hb|].
    split; reflexivity.
Qed.

Lemma service_unavailable_is_upstream_503 :
  status (reply servedConfig uuid0 clock0
            (answering (http 503 (lit "try later") (Throw typeError)))
            typeError
            (chatRequest goodAuth (Some (JObj [(lit "messages", JArr [hi])])))
            newSession) = 502
  /\ error_code (reply servedConfig uuid0 clock0
            (answering (http 503 (lit "try later") (Throw typeError)))
            typeError
            (chatRequest goodAuth (Some (JObj [(lit "messages", JArr [hi])])))
            newSession) = Some (lit "upstream_503").
Proof.
  destruct (upstream_failures_become_502 servedConfig uuid0 clock0
              (answering (http 503 (lit "try later") (Throw typeError)))
              typeError
              (chatRequest goodAuth (Some (JObj [(lit "messages", JArr [hi])])))
              newSession [(lit "messages", JArr [hi])] hi []
              (Normal (http 503 (lit "try later") (Throw typeError))))
    as (_ & Hstatus & _); try reflexivity.
  destruct (Hstatus (http 503 (lit "try later") (Throw typeError))
              (lit "try later")) as (H1 & H2 & _); try reflexivity.
  split; [exact H1|exact H2].
Defined.

(** C5 as it is worded fails: an unreachable backend and an answer without
    [summary] give the same code. *)
Lemma unreachable_and_contract_violation_share_code :
  error_code (reply servedConfig uuid0 clock0 unreachable typeError
                (chatRequest goodAuth
                   (Some (JObj [(lit "messages", JArr [hi])])))
                newSession)
  = Some (lit "api_error")
  /\ error_code (reply servedConfig uuid0 clock0
                   (answering (http 200 (lit "{}") (Normal (JObj []))))
                   typeError
                   (chatRequest goodAuth
                      (Some (JObj [(lit "messages", JArr [hi])])))
                   newSession)
     = Some (lit "api_error").
Proof. split; reflexivity. Qed.

(** C9, as the code has it. A path that is neither "/" nor under "/v1/" is
    answered 404 not_found; under "/v1/", a request that is not OPTIONS,
    carries the credential and is neither GET /v1/models nor POST
    /v1/chat/completions is answered 405 method_not_allowed, whatever its
    path; "/" is answered 200 whatever the method.  None of them calls the
    backend. *)
Theorem routing_outcomes
    (cfg : Config) (uuid : jsstring) (clock : nat -> Z)
    (backend : UpstreamRequest -> Completion UpstreamResponse)
    (nullError : Exn) (req : Request) (s : Session) :
  (startsWith (pathname req) (lit "/v1/") = false ->
   pathname req <> lit "/" ->
   status (reply cfg uuid clock backend nullError req s) = 404
   /\ error_code (reply cfg uuid clock backend nullError req s)
      = Some (lit "not_found")
   /\ after cfg uuid clock backend nullError req s = s)
  /\ (startsWith (pathname req) (lit "/v1/") = true ->
      method req <> lit "OPTIONS" ->
      authorization req = Some (lit "Bearer " ++ API_MASTER_KEY cfg) ->
      ~ (pathname req = lit "/v1/models" /\ method req = lit "GET") ->
      ~ (pathname req = lit "/v1/chat/completions"
         /\ method req = lit "POST") ->
      status (reply cfg uuid clock backend nullError req s) = 405
      /\ error_code (reply cfg uuid clock backend nullError req s)
         = Some (lit "method_not_allowed")
      /\ after cfg uuid clock backend nullError req s = s)
  /\ (pathname req = lit "/" ->
      status (reply cfg uuid clock backend nullError req s) = 200
      /\ body (reply cfg uuid clock backend nullError req s)
         = BodyHealth (lit "ok") (PROJECT_NAME cfg) (PROJECT_VERSION cfg)
      /\ after cfg uuid clock backend nullError req s = s).
Proof.
  unfold reply, after. split; [|split].
  - intros Hv1 Hroot. unfold fetch. rewrite Hv1.
    apply str_eqb_neq in Hroot. rewrite Hroot. repeat split.
  - intros Hv1 Hm Ha Hmodels Hchat. rewrite fetch_v1 by assumption.
    unfold handleApiProxy.
    apply str_eqb_neq in Hm. rewrite Hm.
    rewrite (proj2 (unauthorized_false cfg _) Ha).
    assert (H1 : (str_eqb (pathname req) (lit "/v1/models")
                  && str_eqb (method req) (lit "GET"))%bool = false).
    { apply not_true_is_false. intros H. apply andb_true_iff in H.
      apply Hmodels. now rewrite <- !str_eqb_eq. }
    assert (H2 : (str_eqb (pathname req) (lit "/v1/chat/completions")
                  && str_eqb (method req) (lit "POST"))%bool = false).
    { apply not_true_is_false. intros H. apply andb_true_iff in H.
      apply Hchat. now rewrite <- !str_eqb_eq. }
    rewrite H1, H2. repeat split.
  - intros Hroot. unfold fetch. rewrite Hroot. repeat split.
Qed.

Definition plain (verb path : jsstring) (auth : option jsstring) : Request :=
  {| method := verb; pathname := path; authorization := auth; json := None |}.

Lemma favicon_404_and_delete_models_405 :
  status (reply servedConfig uuid0 clock0 unreachable typeError
            (plain (lit "GET") (lit "/favicon.ico") None) newSession) = 404
  /\ status (reply servedConfig uuid0 clock0 unreachable typeError
               (plain (lit "DELETE") (lit "/v1/models") goodAuth) newSession)
     = 405.
Proof.
  split.
  - apply (proj1 (routing_outcomes servedConfig uuid0 clock0 unreachable
                    typeError
                    (plain (lit "GET") (lit "/favicon.ico") None) newSession));
      [reflexivity|discriminate].
  - apply (proj1 (proj2 (routing_outcomes servedConfig uuid0 clock0
                           unreachable typeError
                           (plain (lit "DELETE") (lit "/v1/models") goodAuth)
                           newSession)));
      try reflexivity; try discriminate;
      intros [_ H]; discriminate.
Defined.

(** C9 as it is worded fails: an authenticated GET of the undefined path
    /v1/engines is answered 405 and not 404, and a POST to the defined path
    "/" is answered 200 and not 405. *)
Lemma unknown_v1_path_405_and_post_root_200 :
  status (reply servedConfig uuid0 clock0 unreachable typeError
            (plain (lit "GET") (lit "/v1/engines") goodAuth) newSession) = 405
  /\ status (reply servedConfig uuid0 clock0 unreachable typeError
               (plain (lit "POST") (lit "/") None) newSession) = 200.
Proof. split; reflexivity. Qed.

(* ------------------------------------------------------------------ *)
(** *** Further behaviour of the dispatcher *)

(** X8. A request with method OPTIONS to any path under "/v1/" is answered
    204 with an empty body and the CORS headers, whatever its credential or
    body, and the backend is not called. *)
Theorem preflight_needs_no_credential
    (cfg : Config) (uuid : jsstring) (clock : nat -> Z)
    (backend : UpstreamRequest -> Completion UpstreamResponse)
    (nullError : Exn) (req : Request) (s : Session) :
  startsWith (pathname req) (lit "/v1/") = true ->
  method req = lit "OPTIONS" ->
  status (reply cfg uuid clock backend nullError req s) = 204
  /\ body (reply cfg uuid clock backend nullError req s) = BodyNull
  /\ headers_get (lit "Access-Control-Allow-Origin")
       (headers (reply cfg uuid clock backend nullError req s))
     = Some (lit "*")
  /\ headers_get (lit "Access-Control-Allow-Headers")
       (headers (reply cfg uuid clock backend nullError req s))
     = Some (lit "Content-Type, Authorization")
  /\ after cfg uuid clock backend nullError req s = s.
Proof.
  intros Hv1 Hm. unfold reply, after.
  rewrite fetch_v1 by assumption.
  rewrite proxy_preflight by assumption.
  repeat split.
Qed.

Lemma preflight_of_unknown_path_without_header :
  status (reply servedConfig uuid0 clock0 unreachable typeError
            (plain (lit "OPTIONS") (lit "/v1/anything") None) newSession)
  = 204
  /\ after servedConfig uuid0 clock0 unreachable typeError
       (plain (lit "OPTIONS") (lit "/v1/anything") None) newSession
     = newSession.
Proof.
  destruct (preflight_needs_no_credential servedConfig uuid0 clock0
              unreachable typeError
              (plain (lit "OPTIONS") (lit "/v1/anything") None) newSession)
    as (H1 & _ & _ & _ & H5); [reflexivity|reflexivity|].
  split; [exact H1|exact H5].
Defined.

(** X9. An authenticated GET /v1/models is answered 200 with the list of the
    configured models: one entry per name of [KNOWN_MODELS], in order, each
    of kind "model" and owned by "askai-project", the k-th stamped with the
    k-th reading of the clock in seconds; the backend is not called. *)
Theorem models_follow_the_configuration
    (cfg : Config) (uuid : jsstring) (clock : nat -> Z)
    (backend : UpstreamRequest -> Completion UpstreamResponse)
    (nullError : Exn) (req : Request) (s : Session) :
  pathname req = lit "/v1/models" -> method req = lit "GET" ->
  authorization req = Some (lit "Bearer " ++ API_MASTER_KEY cfg) ->
  exists data,
    status (reply cfg uuid clock backend nullError req s) = 200
    /\ body (reply cfg uuid clock backend nullError req s)
       = BodyModels (lit "list") data
    /\ map model_id data = KNOWN_MODELS cfg
    /\ map model_created data
       = map (fun k => clock (reads s + k)%nat / 1000)
           (seq 0 (length (KNOWN_MODELS cfg)))
    /\ Forall (fun e => model_object e = lit "model"
                        /\ model_owned_by e = lit "askai-project") data
    /\ calls (after cfg uuid clock backend nullError req s) = calls s.
Proof.
  intros Hp Hm Ha. unfold reply, after.
  rewrite fetch_v1 by (rewrite Hp; reflexivity).
  rewrite proxy_models by assumption.
  destruct (models_run cfg uuid clock s)
    as (data & -> & Hids & Hcreated & Hall).
  exists data. repeat split; trivial.
Qed.

Lemma default_model_is_listed :
  exists data,
    body (reply servedConfig uuid0 clock0 unreachable typeError
            (plain (lit "GET") (lit "/v1/models") goodAuth) newSession)
    = BodyModels (lit "list") data
    /\ map model_id data = [lit "askai-default-model"]
    /\ map model_created data = [1700000000].
Proof.
  destruct (models_follow_the_configuration servedConfig uuid0 clock0
              unreachable typeError
              (plain (lit "GET") (lit "/v1/models") goodAuth) newSession)
    as (data & _ & Hbody & Hids & Hcreated & _);
    [reflexivity|reflexivity|reflexivity|].
  exists data. split; [exact Hbody|]. split; [exact Hids|exact Hcreated].
Defined.

(** X10. Under "/v1/" the answer is 401 exactly when the request is not a
    preflight and does not carry "Bearer " followed by the secret: a request
    with the credential is never answered 401, whatever else is wrong with
    it. *)
Theorem unauthorized_exactly_without_credential
    (cfg : Config) (uuid : jsstring) (clock : nat -> Z)
    (backend : UpstreamRequest -> Completion UpstreamResponse)
    (nullError : Exn) (req : Request) (s : Session) :
  startsWith (pathname req) (lit "/v1/") = true ->
  (status (reply cfg uuid clock backend nullError req s) = 401
   <-> method req <> lit "OPTIONS"
       /\ authorization req <> Some (lit "Bearer " ++ API_MASTER_KEY cfg)).
Proof.
  intros Hv1.
  destruct (v1_paths cfg uuid clock backend nullError req s Hv1)
    as [(Hm & Hst & _)|[(Hm & Ha & Hst & _)|[(Hm & Ha & Hst & _)
                                            |(Hm & Ha & _ & _ & Hr & _)]]].
  - rewrite Hst. split; [discriminate|]. intros [Hne _]. contradiction.
  - rewrite Hst. split; auto.
  - split.
    + intros H401. rewrite H401 in Hst.
      destruct Hst as [H|[H|[H|H]]]; discriminate.
    + intros [_ Hne]. contradiction.
  - rewrite Hr. split; [discriminate|]. intros [_ Hne]. contradiction.
Qed.

Lemma credential_is_case_sensitive :
  status (reply servedConfig uuid0 clock0 unreachable typeError
            (plain (lit "GET") (lit "/v1/models")
               (Some (lit "bearer secret"))) newSession) = 401.
Proof.
  apply (unauthorized_exactly_without_credential servedConfig uuid0 clock0
           unreachable typeError
           (plain (lit "GET") (lit "/v1/models") (Some (lit "bearer secret")))
           newSession); [reflexivity|].
  split; discriminate.
Defined.

(** X11. An authenticated POST /v1/chat/completions is answered 500 exactly
    when its body is the JSON value null; the answer is then the envelope of
    the outermost handler, code internal_server_error, with no other header
    than Content-Type (no X-Request-ID, no CORS header), and the backend is
    not called. *)
Theorem null_body_is_an_internal_error
    (cfg : Config) (uuid : jsstring) (clock : nat -> Z)
    (backend : UpstreamRequest -> Completion UpstreamResponse)
    (nullError : Exn) (req : Request) (s : Session) :
  pathname req = lit "/v1/chat/completions" -> method req = lit "POST" ->
  authorization req = Some (lit "Bearer " ++ API_MASTER_KEY cfg) ->
  (status (reply cfg uuid clock backend nullError req s) = 500
   <-> json req = Some JNull)
  /\ (json req = Some JNull ->
      error_code (reply cfg uuid clock backend nullError req s)
      = Some (lit "internal_server_error")
      /\ error_message (reply cfg uuid clock backend nullError req s)
         = Some (lit "Internal Server Error: " ++ message nullError)
      /\ headers (reply cfg uuid clock backend nullError req s)
         = [(lit "Content-Type", lit "application/json")]
      /\ after cfg uuid clock backend nullError req s = s).
Proof.
  intros Hp Hm Ha.
  assert (Hpost : method req <> lit "OPTIONS")
    by (rewrite Hm; discriminate).
  assert (Hv1 : startsWith (pathname req) (lit "/v1/") = true)
    by (rewrite Hp; reflexivity).
  destruct (v1_paths cfg uuid clock backend nullError req s Hv1)
    as [(Hm' & _)|[(_ & Ha' & _)|[(_ & _ & Hst & _ & Hnn & _)
                                 |(_ & _ & _ & Hj & Hr & Hs)]]];
    try contradiction.
  - specialize (Hnn Hp Hm). split; [|contradiction].
    split; [|contradiction].
    intros H500. rewrite H500 in Hst.
    destruct Hst as [H|[H|[H|H]]]; discriminate.
  - rewrite Hr, Hs. repeat split; trivial.
Qed.

Lemma null_body_answer :
  status (reply servedConfig uuid0 clock0 unreachable typeError
            (chatRequest goodAuth (Some JNull)) newSession) = 500
  /\ headers (reply servedConfig uuid0 clock0 unreachable typeError
                (chatRequest goodAuth (Some JNull)) newSession)
     = [(lit "Content-Type", lit "application/json")].
Proof.
  destruct (null_body_is_an_internal_error servedConfig uuid0 clock0
              unreachable typeError (chatRequest goodAuth (Some JNull))
              newSession) as ([_ H500] & Hrest);
    [reflexivity|reflexivity|reflexivity|].
  split; [now apply H500|].
  destruct (Hrest eq_refl) as (_ & _ & Hh & _). exact Hh.
Defined.

(** X12. An authenticated POST /v1/chat/completions whose JSON body is a
    boolean, a number, a string or an array is answered 400 with code
    invalid_request_error and the message "Missing 'messages' field"; the
    backend is not called. *)
Theorem body_that_is_no_object_gets_400
    (cfg : Config) (uuid : jsstring) (clock : nat -> Z)
    (backend : UpstreamRequest -> Completion UpstreamResponse)
    (nullError : Exn) (req : Request) (s : Session) (v : JSON) :
  pathname req = lit "/v1/chat/completions" -> method req = lit "POST" ->
  authorization req = Some (lit "Bearer " ++ API_MASTER_KEY cfg) ->
  json req = Some v ->
  v <> JNull -> (forall fields, v <> JObj fields) ->
  status (reply cfg uuid clock backend nullError req s) = 400
  /\ error_code (reply cfg uuid clock backend nullError req s)
     = Some (lit "invalid_request_error")
  /\ error_message (reply cfg uuid clock backend nullError req s)
     = Some (lit "Missing 'messages' field")
  /\ after cfg uuid clock backend nullError req s = s.
Proof.
  intros Hp Hm Ha Hj Hnull Hobj. unfold reply, after.
  rewrite fetch_chat by assumption.
  unfold handleChatCompletions. rewrite Hj.
  destruct v as [|b|q|str|items|fields];
    try contradiction; try (now elim (Hobj fields));
    repeat split.
Qed.

Lemma array_body_rejected :
  status (reply servedConfig uuid0 clock0 unreachable typeError
            (chatRequest goodAuth (Some (JArr [hi]))) newSession) = 400
  /\ after servedConfig uuid0 clock0 unreachable typeError
       (chatRequest goodAuth (Some (JArr [hi]))) newSession = newSession.
Proof.
  destruct (body_that_is_no_object_gets_400 servedConfig uuid0 clock0
              unreachable typeError (chatRequest goodAuth (Some (JArr [hi])))
              newSession (JArr [hi])) as (H1 & _ & _ & H4);
    [reflexivity|reflexivity|reflexivity|reflexivity|discriminate
    |discriminate|].
  split; [exact H1|exact H4].
Defined.

(** X13. The only validation of [messages] is the test for length zero: in
    an authenticated POST /v1/chat/completions, a [messages] value that is
    [true], a number other than zero, a non-empty string, a non-empty array
    or an object without a [length] field is sent to the backend as it is,
    in exactly one call. *)
Theorem messages_of_any_shape_are_forwarded
    (cfg : Config) (uuid : jsstring) (clock : nat -> Z)
    (backend : UpstreamRequest -> Completion UpstreamResponse)
    (nullError : Exn) (req : Request) (s : Session)
    (fields : list (jsstring * JSON)) (msgs : JSON) :
  pathname req = lit "/v1/chat/completions" -> method req = lit "POST" ->
  authorization req = Some (lit "Bearer " ++ API_MASTER_KEY cfg) ->
  json req = Some (JObj fields) ->
  lookup (lit "messages") fields = Some msgs ->
  msgs = JBool true
  \/ (exists q, msgs = JNum q /\ Qnum q <> 0)
  \/ (exists x str, msgs = JStr (x :: str))
  \/ (exists m ms, msgs = JArr (m :: ms))
  \/ (exists inner, msgs = JObj inner
                    /\ lookup (lit "length") inner = None) ->
  exists call,
    calls (after cfg uuid clock backend nullError req s) = calls s ++ [call]
    /\ up_messages call = msgs
    /\ up_website call = lit "ask-ai-questions"
    /\ up_url call = UPSTREAM_URL cfg
    /\ up_method call = lit "POST".
Proof.
  intros Hp Hm Ha Hj Hl Hshape.
  assert (Huse : truthy (Some msgs) = true
                 /\ is_zero (length_of msgs) = false).
  { destruct Hshape as [->|[(q & -> & Hq)|[(x & str & ->)|[(m & ms & ->)
                       |(inner & -> & Hlen)]]]]; cbn [truthy length_of].
    - split; reflexivity.
    - split; [|reflexivity]. apply negb_true_iff. now apply Z.eqb_neq.
    - split; reflexivity.
    - split; reflexivity.
    - now rewrite Hlen. }
  destruct Huse as [Htruthy Hlong].
  pose proof (chat_forwards cfg uuid clock backend nullError req s fields
                msgs Hj Hl Htruthy Hlong) as Hsent.
  exists (outbound cfg uuid msgs).
  split; [|repeat split].
  unfold after. rewrite fetch_chat by assumption.
  destruct (handleChatCompletions cfg clock backend nullError req uuid
              (responseHeaders uuid) s) as [[r|e] s']; exact Hsent.
Qed.

Lemma a_plain_string_is_forwarded :
  exists call,
    calls (after servedConfig uuid0 clock0 unreachable typeError
             (chatRequest goodAuth
                (Some (JObj [(lit "messages", JStr (lit "hello"))])))
             newSession) = [call]
    /\ up_messages call = JStr (lit "hello").
Proof.
  destruct (messages_of_any_shape_are_forwarded servedConfig uuid0 clock0
              unreachable typeError
              (chatRequest goodAuth
                 (Some (JObj [(lit "messages", JStr (lit "hello"))])))
              newSession [(lit "messages", JStr (lit "hello"))]
              (JStr (lit "hello")))
    as (call & Hcalls & Hmsgs & _);
    [reflexivity|reflexivity|reflexivity|reflexivity|reflexivity| |].
  - right; right; left. eexists. eexists. reflexivity.
  - exists call. split; [exact Hcalls|exact Hmsgs].
Defined.

(** X14. Whatever the request, the handler makes at most one outbound call
    and keeps the earlier ones; a call is made only for a POST to
    /v1/chat/completions carrying the credential and a JSON object with a
    [messages] field, and it is a POST to the configured upstream address
    carrying that field unchanged, the "ask-ai-questions" marker and the
    request id in its X-Request-ID header. *)
Theorem at_most_one_outbound_call
    (cfg : Config) (uuid : jsstring) (clock : nat -> Z)
    (backend : UpstreamRequest -> Completion UpstreamResponse)
    (nullError : Exn) (req : Request) (s : Session) :
  calls (after cfg uuid clock backend nullError req s) = calls s
  \/ (method req = lit "POST"
      /\ pathname req = lit "/v1/chat/completions"
      /\ authorization req = Some (lit "Bearer " ++ API_MASTER_KEY cfg)
      /\ exists fields msgs call,
           json req = Some (JObj fields)
           /\ lookup (lit "messages") fields = Some msgs
           /\ calls (after cfg uuid clock backend nullError req s)
              = calls s ++ [call]
           /\ up_url call = UPSTREAM_URL cfg
           /\ up_method call = lit "POST"
           /\ up_website call = lit "ask-ai-questions"
           /\ up_messages call = msgs
           /\ headers_get (lit "X-Request-ID") (up_headers call)
              = Some uuid).
Proof.
  destruct (startsWith (pathname req) (lit "/v1/")) eqn:Hv1.
  - destruct (v1_paths cfg uuid clock backend nullError req s Hv1)
      as [(_ & _ & _ & Hs)|[(_ & _ & _ & Hs & _)
           |[(_ & Ha & _ & _ & _ & Hcalls)|(_ & _ & _ & _ & _ & Hs)]]];
      try (left; now rewrite Hs).
    destruct Hcalls as [Hq|(Hp & Hm & fields & msgs & Hj & Hl & Hsent)];
      [now left|right].
    repeat split; trivial.
    exists fields, msgs, (outbound cfg uuid msgs).
    repeat split; trivial.
  - left. unfold after, fetch. rewrite Hv1.
    destruct (str_eqb (pathname req) (lit "/")); reflexivity.
Qed.

(** X15. The non-streamed answer. When the backend answers 2xx with an
    object whose [summary] is the string [summary], and the request has no
    [stream] field or has it false, the client receives 200 and a
    "chat.completion" object whose id is the request id, whose single
    message is the assistant's with content [summary], with finish reason
    "stop" and zero usage counters, stamped with one reading of the clock;
    the model is the one asked for, or the default when none is named. *)
Theorem summary_becomes_the_completion
    (cfg : Config) (uuid : jsstring) (clock : nat -> Z)
    (backend : UpstreamRequest -> Completion UpstreamResponse)
    (nullError : Exn) (req : Request) (s : Session)
    (fields data : list (jsstring * JSON)) (m : JSON) (ms : list JSON)
    (r : UpstreamResponse) (summary : jsstring) :
  pathname req = lit "/v1/chat/completions" -> method req = lit "POST" ->
  authorization req = Some (lit "Bearer " ++ API_MASTER_KEY cfg) ->
  json req = Some (JObj fields) ->
  lookup (lit "messages") fields = Some (JArr (m :: ms)) ->
  lookup (lit "stream") fields = None
  \/ lookup (lit "stream") fields = Some (JBool false) ->
  (forall call, backend call = Normal r) ->
  ok r = true -> up_json r = Normal (JObj data) ->
  lookup (lit "summary") data = Some (JStr summary) ->
  exists c,
    status (reply cfg uuid clock backend nullError req s) = 200
    /\ body (reply cfg uuid clock backend nullError req s) = BodyCompletion c
    /\ message_content c = summary
    /\ message_role c = lit "assistant"
    /\ completion_id c = uuid
    /\ completion_object c = lit "chat.completion"
    /\ completion_finish_reason c = lit "stop"
    /\ completion_created c = clock (reads s) / 1000
    /\ (usage_prompt_tokens c = 0 /\ usage_completion_tokens c = 0
        /\ usage_total_tokens c = 0)
    /\ (lookup (lit "model") fields = None ->
        completion_model c = JStr (DEFAULT_MODEL cfg))
    /\ (forall x name, lookup (lit "model") fields = Some (JStr (x :: name)) ->
        completion_model c = JStr (x :: name))
    /\ headers_get (lit "Content-Type")
         (headers (reply cfg uuid clock backend nullError req s))
       = Some (lit "application/json")
    /\ headers_get (lit "X-Request-ID")
         (headers (reply cfg uuid clock backend nullError req s))
       = Some uuid.
Proof.
  intros Hp Hm Ha Hj Hl Hstream Hb Hok Hd Hsum. unfold reply.
  rewrite fetch_chat by assumption.
  rewrite (chat_completes cfg uuid clock backend nullError req s fields m ms
             r (JObj data) summary); trivial.
  - eexists. cbn [fst status body]. repeat split.
    + intros Hnone. cbn. unfold answered_model. now rewrite Hnone.
    + intros x name Hname. cbn. unfold answered_model. now rewrite Hname.
  - cbn [getProp]. now rewrite Hsum.
  - destruct Hstream as [-> | ->]; reflexivity.
Qed.

Definition summarised (text : jsstring) : UpstreamResponse :=
  http 200 [] (Normal (JObj [(lit "summary", JStr text)])).

Lemma hello_completion :
  exists c,
    body (reply servedConfig uuid0 clock0 (answering (summarised (lit "Hello!")))
            typeError
            (chatRequest goodAuth (Some (JObj [(lit "messages", JArr [hi])])))
            newSession) = BodyCompletion c
    /\ message_content c = lit "Hello!"
    /\ completion_model c = JStr (lit "askai-default-model").
Proof.
  destruct (summary_becomes_the_completion servedConfig uuid0 clock0
              (answering (summarised (lit "Hello!"))) typeError
              (chatRequest goodAuth (Some (JObj [(lit "messages", JArr [hi])])))
              newSession [(lit "messages", JArr [hi])]
              [(lit "summary", JStr (lit "Hello!"))] hi []
              (summarised (lit "Hello!")) (lit "Hello!"))
    as (c & _ & Hbody & Hcontent & _ & _ & _ & _ & _ & _ & Hdefault & _);
    try reflexivity.
  - left. reflexivity.
  - exists c. split; [exact Hbody|]. split; [exact Hcontent|].
    now apply Hdefault.
Defined.


Definition streamingRequest : Request :=
  chatRequest goodAuth
    (Some (JObj [(lit "messages", JArr [hi]); (lit "stream", JBool true)])).


(** X17. From the backend to the client's buffer. For a streamed answer
    and a chunk size of at least one, the stream the handler hands to the
    runtime, run without fault, delivers content chunks that concatenate to
    exactly the backend's [summary], and is then closed. *)
Theorem streamed_answer_reassembles_the_summary
    (cfg : Config) (uuid : jsstring) (clock emitClock : nat -> Z)
    (backend : UpstreamRequest -> Completion UpstreamResponse)
    (nullError err : Exn) (req : Request) (s : Session)
    (fields data : list (jsstring * JSON)) (m : JSON) (ms : list JSON)
    (r : UpstreamResponse) (summary : jsstring) (c : Z) (fuel : nat)
    (faults : nat -> bool) :
  pathname req = lit "/v1/chat/completions" -> method req = lit "POST" ->
  authorization req = Some (lit "Bearer " ++ API_MASTER_KEY cfg) ->
  json req = Some (JObj fields) ->
  lookup (lit "messages") fields = Some (JArr (m :: ms)) ->
  lookup (lit "stream") fields = Some (JBool true) ->
  (forall call, backend call = Normal r) ->
  ok r = true -> up_json r = Normal (JObj data) ->
  lookup (lit "summary") data = Some (JStr summary) ->
  PSEUDO_STREAM_CHUNK_SIZE cfg = Num c -> 1 <= c ->
  (forall j, faults j = false) ->
  (length summary < fuel)%nat ->
  exists ps w',
    body (reply cfg uuid clock backend nullError req s) = BodyStream ps
    /\ start emitClock faults err cfg fuel ps newWire = Some (Normal tt, w')
    /\ concat (contents (queue w')) = summary
    /\ closed w' = true.
Proof.
  intros Hp Hm Ha Hj Hl Hstream Hb Hok Hd Hsum Hsize Hpos Hfaults Hfuel.
  unfold reply. rewrite fetch_chat by assumption.
  rewrite (chat_streams cfg uuid clock backend nullError req s fields m ms
             r (JObj data) summary); trivial;
    [|cbn [getProp]; now rewrite Hsum|now rewrite Hstream].
  set (ps := createPseudoStream summary uuid (answered_model cfg fields)).
  destruct (EmitterFacts.clean_run_reassembles emitClock faults err cfg c ps
              fuel Hsize Hpos Hfaults Hfuel) as (w' & Hrun & Hcat & Hclosed).
  exists ps, w'. repeat split; trivial.
Qed.

Lemma abcd_reaches_the_client :
  exists ps w',
    body (reply servedConfig uuid0 clock0 (answering (summarised (lit "abcd")))
            typeError streamingRequest newSession) = BodyStream ps
    /\ start clock0 EmitterFacts.noFault typeError servedConfig 5 ps newWire
       = Some (Normal tt, w')
    /\ concat (contents (queue w')) = lit "abcd".
Proof.
  destruct (streamed_answer_reassembles_the_summary servedConfig uuid0 clock0
              clock0 (answering (summarised (lit "abcd"))) typeError typeError
              streamingRequest newSession
              [(lit "messages", JArr [hi]); (lit "stream", JBool true)]
              [(lit "summary", JStr (lit "abcd"))] hi []
              (summarised (lit "abcd")) (lit "abcd") 2 5 EmitterFacts.noFault)
    as (ps & w' & Hbody & Hrun & Hcat & _); try reflexivity.
  - lia.
  - simpl. lia.
  - exists ps, w'. split; [exact Hbody|]. split; [exact Hrun|exact Hcat].
Defined.

(** X18. Whatever goes wrong between the outbound call and the answer is
    caught by the handler: an error body that cannot be read, a 2xx body
    that is not JSON, a 2xx body that is the JSON value null.  The client
    receives 502 with the code api_error and the message "Processing
    failed: " followed by the exception's message; in the first case the
    code is not the upstream_<status> one. *)
Theorem failures_after_the_call_become_502
    (cfg : Config) (uuid : jsstring) (clock : nat -> Z)
    (backend : UpstreamRequest -> Completion UpstreamResponse)
    (nullError : Exn) (req : Request) (s : Session)
    (fields : list (jsstring * JSON)) (m : JSON) (ms : list JSON)
    (r : UpstreamResponse) (e : Exn) :
  pathname req = lit "/v1/chat/completions" -> method req = lit "POST" ->
  authorization req = Some (lit "Bearer " ++ API_MASTER_KEY cfg) ->
  json req = Some (JObj fields) ->
  lookup (lit "messages") fields = Some (JArr (m :: ms)) ->
  (forall call, backend call = Normal r) ->
  (ok r = false /\ up_text r = Throw e)
  \/ (ok r = true /\ up_json r = Throw e)
  \/ (ok r = true /\ up_json r = Normal JNull /\ e = nullError) ->
  status (reply cfg uuid clock backend nullError req s) = 502
  /\ error_code (reply cfg uuid clock backend nullError req s)
     = Some (lit "api_error")
  /\ error_message (reply cfg uuid clock backend nullError req s)
     = Some (lit "Processing failed: " ++ message e)
  /\ length (calls (after cfg uuid clock backend nullError req s))
     = S (length (calls s)).
Proof.
  intros Hp Hm Ha Hj Hl Hb Hcase. unfold reply, after.
  rewrite fetch_chat by assumption.
  rewrite (chat_catches cfg uuid clock backend nullError req s fields m ms
             r e); trivial.
  repeat split. cbn. rewrite length_app. simpl. lia.
Qed.

Definition brokenBody : Exn := Error (lit "The socket connection was closed").

Lemma unreadable_error_body_is_api_error :
  error_code (reply servedConfig uuid0 clock0
                (answering {| up_status := 500; up_text := Throw brokenBody;
                              up_json := Throw brokenBody |})
                typeError
                (chatRequest goodAuth
                   (Some (JObj [(lit "messages", JArr [hi])])))
                newSession)
  = Some (lit "api_error").
Proof.
  apply (failures_after_the_call_become_502 servedConfig uuid0 clock0
           (answering {| up_status := 500; up_text := Throw brokenBody;
                         up_json := Throw brokenBody |})
           typeError
           (chatRequest goodAuth (Some (JObj [(lit "messages", JArr [hi])])))
           newSession [(lit "messages", JArr [hi])] hi []
           {| up_status := 500; up_text := Throw brokenBody;
              up_json := Throw brokenBody |} brokenBody);
    try reflexivity.
  left. split; reflexivity.
Defined.

(** X19. The correlation header. A response carries the request id in
    X-Request-ID exactly when the path is under "/v1/" and the status is not
    500: the preflight, the refusals and every answer of the handlers carry
    it; the health answer, the 404 and the internal error do not. *)
Theorem request_id_header_exactly_under_v1
    (cfg : Config) (uuid : jsstring) (clock : nat -> Z)
    (backend : UpstreamRequest -> Completion UpstreamResponse)
    (nullError : Exn) (req : Request) (s : Session) :
  headers_get (lit "X-Request-ID")
    (headers (reply cfg uuid clock backend nullError req s)) = Some uuid
  <-> startsWith (pathname req) (lit "/v1/") = true
      /\ status (reply cfg uuid clock backend nullError req s) <> 500.
Proof.
  destruct (startsWith (pathname req) (lit "/v1/")) eqn:Hv1.
  - destruct (v1_paths cfg uuid clock backend nullError req s Hv1)
      as [(_ & Hst & Hh & _)|[(_ & _ & Hst & _ & Hid)
           |[(_ & _ & Hst & Hid & _)|(_ & _ & _ & _ & Hr & _)]]].
    + rewrite Hh, Hst. split; [split; [reflexivity|discriminate]|reflexivity].
    + rewrite Hid, Hst. split; [split; [reflexivity|discriminate]|reflexivity].
    + rewrite Hid. split; [|reflexivity]. intros _. split; [reflexivity|].
      destruct Hst as [H|[H|[H|H]]]; rewrite H; discriminate.
    + rewrite Hr. split; [discriminate|]. intros [_ H]. now elim H.
  - split; [|intros [H _]; discriminate].
    unfold reply, fetch. rewrite Hv1.
    destruct (str_eqb (pathname req) (lit "/")); discriminate.
Qed.

End DispatcherFacts.

(* ================================================================== *)
(** ** The configuration *)
(* ================================================================== *)

Module ConfigFacts.
Import JS Gateway.















End ConfigFacts.
